(** * El Rincón de Lola — Home Assistant integration

    Shallow embedding of the integration under
    [custom_components/elrincondelola]:

    - [sensor.py]: the SSE listener [ApiPingSensor._listen_sse]
      (reconnection loop, backoff, in-line frame parser), the fetchers
      [ReservaHoySensor] and [_ReservaBase] with its two subclasses, their
      notification handlers and the platform's [async_setup_entry];
    - [binary_sensor.py]: the fetcher [OcupadoBinarySensor] and the
      platform's [async_setup_entry];
    - [config_flow.py]: the login [_login_and_get_token] with its pattern
      search, the user step and the options step;
    - [__init__.py]: what setup and unload do to [hass.data].

    Python values are modelled as they are at run time: [str] is a sequence
    of Unicode code points, [int] is [Z], a [float] is a binary64 with its
    rounding ([SpecFloat]), a [dict] is a [gmap]; the
    environment (HTTP responses, stream chunks, clock readings, stop
    requests) is a script given to the code. *)

From Stdlib Require Import ZArith List String Ascii Lia.
From Stdlib Require Import Floats.SpecFloat.
From stdpp Require Import base option list gmap.

Import ListNotations.
Local Open Scope Z_scope.

(** ** Python strings *)

Module Py.

(** A Python [str]: the sequence of its code points. *)
Abbreviation str := (list N).

(** A literal of the source, written as a Rocq string (ASCII only). *)
Definition lit (s : string) : str :=
  map N_of_ascii (list_ascii_of_string s).

(** [not s] on a [str]. *)
Definition is_empty (s : str) : bool :=
  match s with [] => true | _ => false end.

(** [s.startswith(p)] *)
Fixpoint startswith (s p : str) : bool :=
  match p, s with
  | [], _ => true
  | _ :: _, [] => false
  | c :: p', d :: s' => (N.eqb c d) && startswith s' p'
  end.

(** [s[n:]] for [n >= 0] *)
Definition slice_from (n : nat) (s : str) : str := skipn n s.

(** The characters [str.lstrip()] and [str.isspace()] treat as white space
    (CPython's [_PyUnicode_IsWhitespace]). *)
Definition isspace (c : N) : bool :=
  ((9 <=? c) && (c <=? 13) || (28 <=? c) && (c <=? 32)
   || (c =? 133) || (c =? 160) || (c =? 5760)
   || (8192 <=? c) && (c <=? 8202)
   || (c =? 8232) || (c =? 8233) || (c =? 8239) || (c =? 8287)
   || (c =? 12288))%N.

(** [s.lstrip()] *)
Fixpoint lstrip (s : str) : str :=
  match s with
  | c :: s' => if isspace c then lstrip s' else s
  | [] => []
  end.

(** [s.rstrip(chars)]: drop the longest suffix made of characters of
    [chars]. *)
Fixpoint rstrip (chars : str) (s : str) : str :=
  match s with
  | [] => []
  | c :: s' =>
      match rstrip chars s' with
      | [] => if existsb (N.eqb c) chars then [] else [c]
      | r => c :: r
      end
  end.

Definition LF : N := 10.
Definition SPACE : N := 32.
Definition TAB : N := 9.

End Py.

(** ** Python floats *)

(** A Python [float] is an IEEE 754 binary64; every operation rounds to
    nearest, ties to even. *)
Module Float64.

Abbreviation float := spec_float.

Definition prec : Z := 53.
Definition emax : Z := 1024.

(** [x * y] and [x + y] on floats. *)
Definition mul : float -> float -> float := SFmul prec emax.
Definition add : float -> float -> float := SFadd prec emax.

(** The float nearest to [m * 2 ** e], for [m >= 0]. *)
Definition dyadic (m e : Z) : float := binary_normalize prec emax m e false.

(** [float(n)], the conversion an [int] undergoes when it meets a float
    in an arithmetic operation.  Python raises [OverflowError] where the
    result here is infinite (from about [2 ** 1024] on). *)
Definition of_int (n : Z) : float := binary_normalize prec emax n 0 false.

Definition zero : float := S754_zero false.
Definition one : float := S754_finite false 4503599627370496 (-52).

(** The literals [0.8] and [0.4]: [0x1.999999999999ap-1] and
    [0x1.999999999999ap-2]. *)
Definition lit_0_8 : float := S754_finite false 7205759403792794 (-53).
Definition lit_0_4 : float := S754_finite false 7205759403792794 (-54).

(** [x % 1] (CPython's [float_rem] with divisor [1.0]): [fmod(x, 1.0)],
    which is exact and has the sign of [x]; a remainder that is zero
    becomes [+0.0], a negative one has [1.0] added to it (with rounding).
    An infinite or undefined [x] gives [nan]. *)
Definition mod_one (x : float) : float :=
  match x with
  | S754_nan | S754_infinity _ => S754_nan
  | S754_zero _ => zero
  | S754_finite s m e =>
      let r := match e with
               | Zneg p => dyadic (Zpos m mod 2 ^ Zpos p) e
               | _ => zero
               end in
      match r with
      | S754_zero _ => zero
      | _ => if s then add (SFopp r) one else r
      end
  end.


End Float64.

(** ** The SSE listener: [ApiPingSensor._listen_sse] *)

Module Sse.
Import Py.

(** What the environment does during one pass of the [while] loop. *)

(** One item of [resp.content]: [raw.decode("utf-8")] either raises or
    gives the decoded text (still with its line terminator). *)
Inductive raw :=
| Undecodable
| Decoded (text : str).

(** How iterating [resp.content] ends once its items are used up. *)
Inductive ending :=
| EndOfStream
| ReadException
| ReadCancelled.

(** Outcome of [session.get(url, headers=headers)]. *)
Inductive connection :=
| ConnectException
| ConnectCancelled
| Response (status : Z) (content : list raw) (fin : ending).

(** Outcome of an [await asyncio.sleep(delay)], if one is reached. *)
Inductive sleep_outcome :=
| Slept
| SleepCancelled.

(** One pass: the connection, the reading of
    [asyncio.get_running_loop().time()] and the fate of the sleep. *)
Record attempt := Attempt {
  conn : connection;
  now : Float64.float;
  sleep : sleep_outcome
}.

(** Side effects, in the order they happen. *)
Inductive log_record :=
| DebugConnecting
| DebugStatus (status : Z)
| WarningAuthFailed
| DebugAssembled (buffer : str)
| DebugError.

Inductive effect :=
| Log (r : log_record)
| Sleep (backoff : Z) (delay : Float64.float)
| WriteHaState (value : option str)
| DispatcherSend.

(** The variables the loop reads and writes: the fields [_running] and
    [_attr_native_value], the local [backoff], and the effects so far.
    Nothing in the loop writes [_running]: [async_will_remove_from_hass]
    clears it and cancels the task at once, which a script shows as a
    cancelled await. *)
Record loop_state := LoopState {
  running : bool;
  backoff : Z;
  attr_native_value : option str;
  effects : list effect
}.

Definition emit (e : effect) (st : loop_state) : loop_state :=
  LoopState (running st) (backoff st) (attr_native_value st) (effects st ++ [e]).

Definition set_backoff (b : Z) (st : loop_state) : loop_state :=
  LoopState (running st) b (attr_native_value st) (effects st).

Definition set_native_value (v : option str) (st : loop_state) : loop_state :=
  LoopState (running st) (backoff st) v (effects st).

(** [self.async_write_ha_state()] publishes the current native value. *)
Definition async_write_ha_state (st : loop_state) : loop_state :=
  emit (WriteHaState (attr_native_value st)) st.

(** State when [_listen_sse] starts from [async_added_to_hass]. *)
Definition initial : loop_state :=
  LoopState true 10 None [].

(** [backoff * (0.8 + 0.4 * (time % 1))] (lines 79 and 116), computed in
    floats as Python does: [time % 1] first, then the product with [0.4],
    the sum with [0.8], and the product with the backoff converted from
    [int]; each step rounds. *)
Definition jitter_delay (backoff : Z) (time : Float64.float) : Float64.float :=
  Float64.mul (Float64.of_int backoff)
    (Float64.add Float64.lit_0_8
       (Float64.mul Float64.lit_0_4 (Float64.mod_one time))).

Inductive completion :=
| Normal
| RaisedCancelled.

(** Lines 79-81 and again 116-118: sleep for the jittered delay, then
    double the backoff up to the ceiling. *)
Definition sleep_and_double (a : attempt) (st : loop_state)
  : loop_state * completion :=
  let delay := jitter_delay (backoff st) (now a) in
  let st := emit (Sleep (backoff st) delay) st in
  match sleep a with
  | SleepCancelled => (st, RaisedCancelled)
  | Slept => (set_backoff (Z.min (backoff st * 2) 300) st, Normal)
  end.

(** The [except Exception as ex] handler. *)
Definition on_exception (a : attempt) (st : loop_state)
  : loop_state * completion :=
  sleep_and_double a (emit (Log DebugError) st).

(** Body of [async for raw in resp.content], after the [_running] test. *)
Definition on_raw (r : raw) (buffer : str) (st : loop_state)
  : loop_state * str :=
  match r with
  | Undecodable => (st, buffer)
  | Decoded text =>
      let line := rstrip [LF] text in
      if is_empty line then
        if negb (is_empty buffer) then
          let st := emit (Log (DebugAssembled buffer)) st in
          let st := set_native_value (Some buffer) st in
          let st := async_write_ha_state st in
          let st := emit DispatcherSend st in
          (st, [])
        else (st, buffer)
      else if startswith line (lit ":") then (st, buffer)
      else if startswith line (lit "data:") then
        (st, buffer ++ lstrip (slice_from 5 line))
      else (st, buffer)
  end.

(** The [async for] loop; the boolean tells whether it left by [break]. *)
Fixpoint read_content (content : list raw) (buffer : str) (st : loop_state)
  : loop_state * str * bool :=
  match content with
  | [] => (st, buffer, false)
  | r :: rest =>
      if negb (running st) then (st, buffer, true)
      else let '(st', buffer') := on_raw r buffer st in
           read_content rest buffer' st'
  end.

(** One pass of the body of [while self._running]. *)
Definition iteration (a : attempt) (st : loop_state)
  : loop_state * completion :=
  let st := emit (Log DebugConnecting) st in
  match conn a with
  | ConnectCancelled => (st, RaisedCancelled)
  | ConnectException => on_exception a st
  | Response status content fin =>
      let st := emit (Log (DebugStatus status)) st in
      if negb (status =? 200) then
        let st := if status =? 401 then emit (Log WarningAuthFailed) st
                  else st in
        sleep_and_double a st
      else
        let st := set_backoff 5 st in
        let '(st, _, broke) := read_content content [] st in
        if broke then (st, Normal)
        else match fin with
             | EndOfStream => (st, Normal)
             | ReadException => on_exception a st
             | ReadCancelled => (st, RaisedCancelled)
             end
  end.

(** How a run over a finite script stands at its end. *)
Inductive outcome :=
| Returned      (* [_running] was false at the loop test *)
| Cancelled     (* [CancelledError] re-raised to the task owner *)
| Reconnecting. (* still looping: about to connect again *)

Fixpoint listen_sse (script : list attempt) (st : loop_state)
  : loop_state * outcome :=
  if negb (running st) then (st, Returned)
  else match script with
       | [] => (st, Reconnecting)
       | a :: rest =>
           match iteration a st with
           | (st', Normal) => listen_sse rest st'
           | (st', RaisedCancelled) => (st', Cancelled)
           end
       end.

(** The events handed to the rest of the integration: the values
    published by [async_write_ha_state]. *)
Definition published (tr : list effect) : list (option str) :=
  omap (fun e => match e with WriteHaState v => Some v | _ => None end) tr.

(** Number of [async_dispatcher_send] calls. *)
Definition dispatched (tr : list effect) : nat :=
  length (omap (fun e => match e with DispatcherSend => Some tt | _ => None end) tr).

End Sse.

(** ** The snapshot fetchers: [_refresh_from_api] *)

Module Fetch.
Import Py.
Local Open Scope string_scope.
Local Open Scope Z_scope.

(** Values [resp.json()] can return, which are also the values the
    fetchers store. *)
#[local] Set Warnings "-register-all".
Inductive pyval :=
| PNone
| PBool (b : bool)
| PInt (z : Z)
| PFloat (f : spec_float)
| PStr (s : str)
| PList (l : list pyval)
| PDict (d : gmap str pyval).
#[local] Set Warnings "register-all".

(** Truth value of a Python object. *)
Definition truthy (v : pyval) : bool :=
  match v with
  | PNone => false
  | PBool b => b
  | PInt z => negb (z =? 0)
  | PFloat (S754_zero _) => false
  | PFloat _ => true
  | PStr s => negb (is_empty s)
  | PList l => match l with [] => false | _ => true end
  | PDict d => negb (Nat.eqb (size d) 0)
  end.

(** [bool(v)] *)
Definition py_bool (v : pyval) : pyval := PBool (truthy v).

(** [a or b] *)
Definition py_or (a b : pyval) : pyval := if truthy a then a else b.

(** [d.get(key)] and [d.get(key, default)] *)
Definition get (d : gmap str pyval) (key : string) : pyval :=
  default PNone (d !! lit key).

Definition get_or (d : gmap str pyval) (key : string) (dflt : pyval) : pyval :=
  default dflt (d !! lit key).

(** A dict display [{k1: v1, ...}]. *)
Definition dict (items : list (string * pyval)) : gmap str pyval :=
  list_to_map (map (fun kv => (lit kv.1, kv.2)) items).

(** Outcome of [resp.json()]. *)
Inductive body :=
| JsonRaises
| Json (data : pyval).

(** Outcome of [session.get(url, headers=headers)]. *)
Inductive response :=
| RequestRaises
| Status (status : Z) (content : body).

Inductive effect :=
| DebugResponded (endpoint : str) (status : Z)
| DebugErrorFetching (endpoint : str)
| WriteHaState.

Inductive completion :=
| Returns
| RaisesAttributeError.

(** The [try] block the three classes share: [inl] is the early [return]
    with what was logged, [inr] the parsed [data]. *)
Definition fetch (endpoint : str) (resp : response) : list effect + pyval :=
  match resp with
  | RequestRaises => inl [DebugErrorFetching endpoint]
  | Status status content =>
      if negb (status =? 200) then inl [DebugResponded endpoint status]
      else match content with
           | JsonRaises => inl [DebugErrorFetching endpoint]
           | Json data => inr data
           end
  end.

(** *** [OcupadoBinarySensor] *)

Record binary_state := BinaryState {
  is_on : bool;
  battrs : gmap str pyval
}.

Definition Ocupado_init : binary_state := BinaryState false ∅.

Definition Ocupado_refresh (resp : response) (st : binary_state)
  : binary_state * list effect * completion :=
  match fetch (lit "/api/today") resp with
  | inl log => (st, log, Returns)
  | inr (PDict data) =>
      let has_res := truthy (get_or data "has_reservation" (PBool false)) in
      (BinaryState has_res
         (dict [("reserva_hoy", PBool has_res);
                ("nombre", get data "user_name");
                ("cumpleanos", py_bool (get_or data "is_birthday" (PBool false)));
                ("festivo", py_bool (get_or data "is_holiday" (PBool false)));
                ("foto_perfil_url", get data "profile_pic_url")]),
       [WriteHaState], Returns)
  | inr _ => (st, [], RaisesAttributeError)
  end.

(** *** [ReservaHoySensor] and [_ReservaBase] *)

Record sensor_state := SensorState {
  attr_native_value : pyval;
  attrs : gmap str pyval
}.

Definition sensor_init : sensor_state := SensorState PNone ∅.

Definition ReservaHoy_refresh (resp : response) (st : sensor_state)
  : sensor_state * list effect * completion :=
  match fetch (lit "/api/today") resp with
  | inl log => (st, log, Returns)
  | inr (PDict data) =>
      let has_res := get data "has_reservation" in
      let value :=
        if truthy has_res
        then py_or (get data "user_name") (PStr (lit "Desconocido"))
        else PStr (lit "Libre") in
      (SensorState value
         (dict [("cumpleanos", py_bool (get_or data "is_birthday" (PBool false)));
                ("festivo", py_bool (get_or data "is_holiday" (PBool false)));
                ("foto_perfil_url", get data "profile_pic_url")]),
       [WriteHaState], Returns)
  | inr _ => (st, [], RaisesAttributeError)
  end.

(** [_ReservaBase._refresh_from_api], for the instance's [_endpoint]. *)
Definition ReservaBase_refresh (endpoint : string) (resp : response)
    (st : sensor_state) : sensor_state * list effect * completion :=
  match fetch (lit endpoint) resp with
  | inl log => (st, log, Returns)
  | inr (PDict data) =>
      let value :=
        if truthy (get data "has_reservation")
        then py_or (py_or (get data "user_name") (get data "date"))
                   (PStr (lit "Desconocido"))
        else PStr (lit "Ninguna") in
      (SensorState value
         (dict [("nombre", get data "user_name");
                ("cumpleanos", py_bool (get_or data "is_birthday" (PBool false)));
                ("festivo", py_bool (get_or data "is_holiday" (PBool false)));
                ("foto_perfil_url", get data "profile_pic_url");
                ("fecha", get data "date")]),
       [WriteHaState], Returns)
  | inr _ => (st, [], RaisesAttributeError)
  end.

Definition ReservaAnterior_refresh := ReservaBase_refresh "/api/prev".
Definition ReservaProxima_refresh := ReservaBase_refresh "/api/next".

End Fetch.

(** ** Vocabulary of the statements *)

Module Lines.
Import Py Sse.

(** The [line] the loop body works on, when decoding succeeds. *)
Definition line_of (r : raw) : option str :=
  match r with
  | Undecodable => None
  | Decoded text => Some (rstrip [LF] text)
  end.

(** [r] is a blank line: it decodes and nothing is left after [rstrip]. *)
Definition is_blank (r : raw) : bool :=
  match line_of r with
  | Some [] => true
  | _ => false
  end.

(** [r] is a [data:] line. *)
Definition is_data (r : raw) : bool :=
  match line_of r with
  | Some line => startswith line (lit "data:")
  | None => false
  end.

(** What a line contributes to the buffer: for a [data:] line the text
    after the prefix without its leading white space, else nothing. *)
Definition data_payload (r : raw) : str :=
  match line_of r with
  | Some line =>
      if startswith line (lit "data:") then lstrip (slice_from 5 line) else []
  | None => []
  end.

(** A raw line as the stream delivers it: the text and its terminator. *)
Definition line (s : string) : raw := Decoded (lit s ++ [LF]).

(** The effects of handing one assembled event over. *)
Definition handover (buffer : str) : list effect :=
  [Log (DebugAssembled buffer); WriteHaState (Some buffer); DispatcherSend].

(** The state once [buffer] has been handed over. *)
Definition after_handover (buffer : str) (st : loop_state) : loop_state :=
  LoopState (running st) (backoff st) (Some buffer) (effects st ++ handover buffer).

(** Spec wording of the [data:] rule: drop one leading space, if any. *)
Definition strip_single_space (s : str) : str :=
  match s with
  | c :: s' => if (c =? SPACE)%N then s' else s
  | [] => []
  end.

(** The two bounds of the backoff, in seconds: the value set on HTTP 200
    and the cap of the doubling. *)
Definition FLOOR : Z := 5.
Definition CEILING : Z := 300.

(** A published value that is a real event: a non-empty string. *)
Definition is_event (v : option str) : bool :=
  match v with
  | Some (_ :: _) => true
  | _ => false
  end.

(** A sleep that was entered with a backoff within the ceiling. *)
Definition sleep_capped (e : effect) : bool :=
  match e with
  | Sleep b _ => b <=? CEILING
  | _ => true
  end.

(** What every effect of the loop satisfies. *)
Definition effect_ok (e : effect) : bool :=
  match e with
  | WriteHaState v => is_event v
  | _ => sleep_capped e
  end.

(** The loop invariant: the backoff stays between floor and ceiling and
    every effect so far is as above. *)
Definition inv (st : loop_state) : Prop :=
  FLOOR <= backoff st <= CEILING /\ forallb effect_ok (effects st) = true.

(** A failed pass that never saw HTTP 200: the request raised, or the
    status was not 200; the sleep that follows ran to its end. *)
Definition refused (a : attempt) : bool :=
  match sleep a, conn a with
  | Slept, ConnectException => true
  | Slept, Response status _ _ => negb (status =? 200)
  | _, _ => false
  end.

End Lines.

Module Snapshots.
Import Py Fetch.
Local Open Scope string_scope.
Local Open Scope Z_scope.

(** The GET gave no parsed 200 body: the request raised, the status was
    not 200, or [resp.json()] raised. *)
Definition failed (resp : response) : bool :=
  match resp with
  | RequestRaises => true
  | Status status content =>
      negb (status =? 200)
      || match content with JsonRaises => true | Json _ => false end
  end.

(** A 200 response whose body parses to the JSON object [data]. *)
Definition ok (data : gmap str pyval) : response :=
  Status 200 (Json (PDict data)).

(** The field [key] is missing from the payload or is [null]. *)
Definition absent_or_null (data : gmap str pyval) (key : string) : Prop :=
  data !! lit key = None \/ data !! lit key = Some PNone.

End Snapshots.

(** ** Sample inputs *)

Module StreamSamples.
Import Py Sse Lines.

(** The endpoint is down: a 503, then the sleep. *)
Definition down : attempt :=
  Attempt (Response 503 [] EndOfStream) Float64.zero Slept.

(** The request itself raises; the clock reads 0.5. *)
Definition lost : attempt :=
  Attempt ConnectException (Float64.dyadic 1 (-1)) Slept.

(** The token is refused; the clock reads 1.25. *)
Definition unauthorized : attempt :=
  Attempt (Response 401 [] EndOfStream) (Float64.dyadic 5 (-2)) Slept.

(** A stream that delivers one event ["a"], then [tail], then breaks. *)
Definition cut (tail : list raw) : attempt :=
  Attempt (Response 200 ([line "data: a"; line ""] ++ tail) ReadException)
    Float64.zero Slept.

(** A stream that delivers one event ["c"] and is closed by the server. *)
Definition closed : attempt :=
  Attempt (Response 200 [line "data: c"; line ""] EndOfStream)
    Float64.zero Slept.

(** A connection that breaks before any line arrives. *)
Definition broken : attempt :=
  Attempt (Response 200 [] ReadException) Float64.zero Slept.

(** [data:] followed by a tab, a space and ["x y"]. *)
Definition indented : str := lit "data: " ++ [TAB; SPACE] ++ lit "x y" ++ [LF].

(** [data:] followed by two spaces and ["x"]. *)
Definition two_spaces : str := lit "data:  x" ++ [LF].

End StreamSamples.

Module SnapshotSamples.
Import Py Fetch Snapshots.
Local Open Scope string_scope.

(** No reservation, the name is null. *)
Definition free : gmap str pyval :=
  dict [("has_reservation", PBool false); ("user_name", PNone)].

(** No reservation, yet the payload carries a name. *)
Definition free_named : gmap str pyval :=
  dict [("has_reservation", PBool false); ("user_name", PStr (lit "Ana"))].

(** A reservation with a null name and no date. *)
Definition anonymous : gmap str pyval :=
  dict [("has_reservation", PInt 1); ("user_name", PNone)].

Definition occupied : binary_state :=
  BinaryState true (dict [("nombre", PStr (lit "Ana"))]).

Definition shown : sensor_state :=
  SensorState (PStr (lit "Ana")) (dict [("festivo", PBool true)]).

End SnapshotSamples.

(** ** Streams, traces and notification histories *)

Module Traces.
Import Py Sse Lines.

Definition CR : N := 13.

(** A line the loop body skips: it is neither blank nor a [data:] line (a
    comment, another field, or an item that does not decode). *)
Definition is_ignored (r : raw) : bool :=
  negb (is_blank r) && negb (is_data r).

(** A line that adds nothing to the buffer and closes no block: it is not
    blank and its payload is empty.  Ignored lines are of this kind, and so
    are [data:] lines with nothing but white space after the prefix. *)
Definition is_silent (r : raw) : bool :=
  negb (is_blank r) && is_empty (data_payload r).

(** The joined payload of a block of lines. *)
Definition payload (block : list raw) : str :=
  concat (map data_payload block).

(** A block that will give an event: no blank line inside and a payload
    that is not empty. *)
Definition is_block (block : list raw) : bool :=
  forallb (fun r => negb (is_blank r)) block && negb (is_empty (payload block)).

(** A block followed by the blank line that closes it. *)
Definition closed_block (block : list raw) : list raw :=
  block ++ [Decoded [LF]].

(** A text sent with a carriage return and line feed as terminator. *)
Definition crlf (text : str) : raw := Decoded (text ++ [CR; LF]).

Definition is_sleep (e : effect) : bool :=
  match e with
  | Sleep _ _ => true
  | _ => false
  end.

(** Number of sleeps entered. *)
Definition sleeps (tr : list effect) : nat :=
  length (List.filter is_sleep tr).

(** The pass reaches a backoff sleep: the request raised, the status was
    not 200, or the stream of a 200 response raised. *)
Definition fails (a : attempt) : bool :=
  match conn a with
  | ConnectException => true
  | ConnectCancelled => false
  | Response status _ fin =>
      negb (status =? 200)
      || match fin with ReadException => true | _ => false end
  end.

(** No await of the pass is cancelled. *)
Definition uncancelled (a : attempt) : bool :=
  match conn a, sleep a with
  | ConnectCancelled, _ => false
  | ConnectException, Slept => true
  | ConnectException, SleepCancelled => false
  | Response status _ fin, s =>
      if negb (status =? 200)
      then match s with Slept => true | SleepCancelled => false end
      else match fin, s with
           | EndOfStream, _ => true
           | ReadException, Slept => true
           | _, _ => false
           end
  end.

(** The pass got HTTP 200. *)
Definition connected (a : attempt) : bool :=
  match conn a with
  | Response status _ _ => status =? 200
  | _ => false
  end.

End Traces.

Module Handlers.
Import Py Fetch Snapshots.

(** [_handle_sse_update] and [_handle_midnight_tick]: each awaits
    [_refresh_from_api] and nothing else.  A fetcher over a history of
    notifications, each answered by the API with one response; what a
    handler raises goes to the dispatcher's log and the entity lives on. *)
Definition handle_all {S : Type}
    (refresh : response -> S -> S * list effect * completion)
    (history : list response) (st : S) : S :=
  fold_left (fun st resp => (refresh resp st).1.1) history st.

(** The JSON object a response delivers, if it delivers one. *)
Definition object_of (resp : response) : option (gmap str pyval) :=
  match resp with
  | Status status (Json (PDict data)) =>
      if (status =? 200)%Z then Some data else None
  | _ => None
  end.

(** The 200 body parsed, but to something that is not an object. *)
Definition not_an_object (v : pyval) : bool :=
  match v with
  | PDict _ => false
  | _ => true
  end.

End Handlers.

(** ** The config flow: [ElRinconLolaConfigFlow] *)

Module ConfigFlow.
Import Py Fetch.

Definition QUOTE : N := 34.
Definition GT : N := 62.

(** The two literal parts of the pattern searched in the login page,
    written here with Q for the double quote:
    [name=Qcsrf_tokenQ[^>]*value=Q([^Q]+)Q]. *)
Definition NAME : str := lit "name=" ++ [QUOTE] ++ lit "csrf_token" ++ [QUOTE].
Definition VALUE : str := lit "value=" ++ [QUOTE].

(** The longest prefix without the character [c], and what follows it. *)
Fixpoint span_not (c : N) (s : str) : str * str :=
  match s with
  | d :: s' =>
      if (d =? c)%N then ([], s)
      else let '(tok, rest) := span_not c s' in (d :: tok, rest)
  | [] => ([], [])
  end.

(** The end of the pattern, [value=Q([^Q]+)Q], matched at the head of
    [s]: the group takes every character up to the next quote, needs at
    least one, and the quote must be there. *)
Definition match_value (s : str) : option str :=
  if startswith s VALUE then
    match span_not QUOTE (slice_from 7 s) with
    | ((_ :: _) as tok, _ :: _) => Some tok
    | _ => None
    end
  else None.

(** [[^>]*value=Q([^Q]+)Q] matched at the head of [s]: the star is
    greedy, so the longest stretch without [>] is tried first and given
    back one character at a time. *)
Fixpoint match_tail (s : str) : option str :=
  match s with
  | c :: s' =>
      if negb (c =? GT)%N
      then match match_tail s' with
           | Some tok => Some tok
           | None => match_value s
           end
      else match_value s
  | [] => match_value []
  end.

(** [re.search(pattern, text)] and [match.group(1)]: the match at the
    leftmost position where there is one. *)
Fixpoint search_csrf (text : str) : option str :=
  match (if startswith text NAME then match_tail (slice_from 17 text)
         else None) with
  | Some tok => Some tok
  | None =>
      match text with
      | _ :: text' => search_csrf text'
      | [] => None
      end
  end.

(** What can be raised while logging in. *)
Inductive exn :=
| RuntimeError (msg : string)
| KeyError
| TypeError
| OtherException     (* a client, decoding or JSON error *)
| CancelledError.

(** [except Exception] catches all of them but [CancelledError]. *)
Definition is_Exception (e : exn) : bool :=
  match e with
  | CancelledError => false
  | _ => true
  end.

Inductive reply (A : Type) :=
| Raises (e : exn)
| Gives (a : A).
Arguments Raises {A} e.
Arguments Gives {A} a.

(** What the server does during one login: the page of the GET (with
    [resp.text()]), the status of the credentials POST, and the status and
    parsed body of the token POST. *)
Record server := Server {
  login_page : reply str;
  login_post : reply Z;
  token_post : reply (Z * reply pyval)
}.

Inductive request :=
| Get (url : str)
| PostForm (url : str) (payload : gmap str str)
| Post (url : str).

(** [data["access_token"]] *)
Definition subscript (data : pyval) (key : string) : reply pyval :=
  match data with
  | PDict d =>
      match d !! lit key with
      | Some v => Gives v
      | None => Raises KeyError
      end
  | _ => Raises TypeError
  end.

(** The form posted to the login URL. *)
Definition login_form (csrf username password : str) : gmap str str :=
  list_to_map [(lit "csrf_token", csrf); (lit "email_or_username", username);
               (lit "password", password); (lit "remember", lit "y")].

(** [_login_and_get_token]: the requests sent, in order, and the token or
    what is raised. *)
Definition login_and_get_token (srv : server) (host username password : str)
  : list request * reply pyval :=
  let login_url := host ++ lit "/login" in
  let token_url := host ++ lit "/oauth/token" in
  match login_page srv with
  | Raises e => ([Get login_url], Raises e)
  | Gives text =>
      match search_csrf text with
      | None => ([Get login_url], Raises (RuntimeError "CSRF token not found"))
      | Some csrf =>
          let sent := [Get login_url;
                       PostForm login_url (login_form csrf username password)] in
          match login_post srv with
          | Raises e => (sent, Raises e)
          | Gives status =>
              if negb ((status =? 200) || (status =? 302))
              then (sent, Raises (RuntimeError "Login failed"))
              else
                let sent := sent ++ [Post token_url] in
                match token_post srv with
                | Raises e => (sent, Raises e)
                | Gives (status, body) =>
                    if negb (status =? 200)
                    then (sent, Raises (RuntimeError "Token request failed"))
                    else match body with
                         | Raises e => (sent, Raises e)
                         | Gives data => (sent, subscript data "access_token")
                         end
                end
          end
      end
  end.

(** [p in s]: [p] occurs somewhere in [s]. *)
Fixpoint occurs (p s : str) : bool :=
  startswith s p
  || match s with
     | _ :: s' => occurs p s'
     | [] => false
     end.

(** [s.find(p)], with [None] for -1. *)
Fixpoint find (p s : str) : option nat :=
  if startswith s p then Some 0%nat
  else match s with
       | _ :: s' => S <$> find p s'
       | [] => None
       end.

(** No character of [s] is [c]. *)
Definition free_of (c : N) (s : str) : bool :=
  forallb (fun d => negb (d =? c)%N) s.

Inductive flow_result :=
| CreateEntry (title : str) (data : gmap str pyval)
| ShowForm (step_id : string) (required : list str) (errors : gmap str str).

(** The entry title, ["El Rincón de Lola"]. *)
Definition TITLE : str := lit "El Rinc" ++ [243%N] ++ lit "n de Lola".

Section Step.
(** The keys of the form, from the integration's [const.py]. *)
Variables CONF_HOST CONF_USERNAME CONF_PASSWORD : str.

(** [async_step_user] *)
Definition async_step_user (srv : server) (user_input : option (gmap str str))
  : list request * reply flow_result :=
  let form errors :=
    ShowForm "user" [CONF_HOST; CONF_USERNAME; CONF_PASSWORD] errors in
  match user_input with
  | None => ([], Gives (form ∅))
  | Some input =>
      let '(sent, token) :=
        match input !! CONF_HOST, input !! CONF_USERNAME,
              input !! CONF_PASSWORD with
        | Some host, Some username, Some password =>
            login_and_get_token srv host username password
        | _, _, _ => ([], Raises KeyError)
        end in
      match token with
      | Raises e =>
          if is_Exception e
          then (sent, Gives (form {[lit "base" := lit "auth"]}))
          else (sent, Raises e)
      | Gives token =>
          (sent,
           Gives (CreateEntry TITLE
                    (list_to_map
                       [(lit "host", PStr (default [] (input !! CONF_HOST)));
                        (lit "token", token)])))
      end
  end.

(** What the options step does besides answering: the requests of the
    login, the update of the entry and its reload. *)
Inductive flow_effect :=
| Sent (r : request)
| UpdateEntry (data options : gmap str pyval)
| Reload.

(** What the options step answers: the closing entry, or the form with
    its fields and their defaults. *)
Inductive options_result :=
| Finish (title : str) (data : gmap str pyval)
| ShowOptions (step_id : string) (fields : list (str * option pyval))
    (errors : gmap str str).

(** [OptionsFlowHandler.async_step_init], on an entry with [data] and
    [options].  [updated] and [reloaded] are what awaiting the results of
    [async_update_entry] and [async_reload] gives. *)
Definition async_step_init (srv : server) (updated reloaded : reply unit)
    (data options : gmap str pyval) (user_input : option (gmap str str))
  : list flow_effect * reply options_result :=
  let form sent errors :=
    let default_host :=
      default (default (PStr []) (data !! lit "host")) (options !! lit "host") in
    let default_username :=
      default (PStr []) (options !! lit "username") in
    (sent,
     Gives (ShowOptions "init"
              [(CONF_HOST, Some default_host);
               (CONF_USERNAME, Some default_username);
               (CONF_PASSWORD, None)] errors)) in
  match user_input with
  | None => form [] ∅
  | Some input =>
      match input !! CONF_HOST, input !! CONF_USERNAME,
            input !! CONF_PASSWORD with
      | Some host, Some username, Some password =>
          let '(requests, token) :=
            login_and_get_token srv host username password in
          let sent := map Sent requests in
          match token with
          | Raises e =>
              if is_Exception e then form sent {[lit "base" := lit "auth"]}
              else (sent, Raises e)
          | Gives token =>
              let new_data :=
                <[lit "token" := token]> (<[lit "host" := PStr host]> data) in
              let sent := sent ++ [UpdateEntry new_data ∅] in
              match updated with
              | Raises e => (sent, Raises e)
              | Gives _ =>
                  let sent := sent ++ [Reload] in
                  match reloaded with
                  | Raises e => (sent, Raises e)
                  | Gives _ => (sent, Gives (Finish [] ∅))
                  end
              end
          end
      | _, _, _ => ([], Raises KeyError)
      end
  end.

End Step.

End ConfigFlow.

Module LoginSamples.
Import Py Fetch ConfigFlow.
Local Open Scope string_scope.

(** A login page with the hidden field, as the form library renders it. *)
Definition page : str :=
  lit "<form><input id=" ++ [QUOTE] ++ lit "csrf_token" ++ [QUOTE]
  ++ lit " " ++ NAME ++ lit " type=" ++ [QUOTE] ++ lit "hidden" ++ [QUOTE]
  ++ lit " " ++ VALUE ++ lit "Ij.k-9_" ++ [QUOTE; GT] ++ lit "</form>".

(** A server that lets the login through and hands out the token
    ["T0K"]. *)
Definition friendly : server :=
  Server (Gives page) (Gives 302)
    (Gives (200, Gives (PDict (dict [("access_token", PStr (lit "T0K"))])))).

(** A server whose login page has no form. *)
Definition formless : server :=
  Server (Gives (lit "<html>down for maintenance</html>")) (Gives 200)
    (Gives (200, Gives (PDict (dict [("access_token", PStr (lit "T0K"))])))).

Definition credentials : gmap str str :=
  list_to_map [(lit "host", lit "http://lola"); (lit "username", lit "ana");
               (lit "password", lit "secreto")].

End LoginSamples.

(** ** Entry setup: [__init__.py] and the platforms' [async_setup_entry] *)

Module Setup.
Import Py Fetch.
Local Open Scope string_scope.

(** A config entry, as far as the integration reads it. *)
Record config_entry := ConfigEntry {
  entry_id : str;
  data : gmap str pyval
}.

(** [hass.data] at the key [DOMAIN]: missing, or the dict from entry ids
    to what the integration stored for them. *)
Abbreviation domain_data := (option (gmap str (gmap str pyval))).

(** [async_setup_entry] of the integration, as far as [hass.data] goes
    (reloading the platform modules and forwarding to the platforms do not
    touch it). *)
Definition async_setup_entry (entry : config_entry) (hd : domain_data)
  : domain_data * bool :=
  let slot := default ∅ hd in
  (Some (<[entry_id entry :=
             dict [("host", get (data entry) "host");
                   ("token", get (data entry) "token")]]> slot),
   true).

Inductive outcome (A : Type) :=
| Done (a : A)
| RaisesKeyError.
Arguments Done {A} a.
Arguments RaisesKeyError {A}.

(** [async_unload_entry], given what unloading the platforms answered. *)
Definition async_unload_entry (unload_ok : bool) (entry : config_entry)
    (hd : domain_data) : domain_data * outcome bool :=
  if unload_ok then
    match hd with
    | None => (hd, RaisesKeyError)
    | Some slot =>
        match slot !! entry_id entry with
        | None => (hd, RaisesKeyError)
        | Some _ => (Some (delete (entry_id entry) slot), Done true)
        end
    end
  else (hd, Done false).

(** An entity as its constructor leaves it. *)
Record entity := Entity {
  attr_name : str;
  attr_unique_id : str;
  host : pyval;
  token : pyval
}.

Definition ApiPingSensor (host token : pyval) : entity :=
  Entity (lit "El Rinc" ++ [243%N] ++ lit "n de Lola API") (lit "elrincondelola_api")
    host token.

Definition ReservaHoySensor (host token : pyval) : entity :=
  Entity (lit "Reserva Hoy") (lit "elrincondelola_reserva_hoy") host token.

Definition ReservaAnteriorSensor (host token : pyval) : entity :=
  Entity (lit "Anterior Reserva") (lit "elrincondelola_reserva_anterior")
    host token.

Definition ReservaProximaSensor (host token : pyval) : entity :=
  Entity (lit "Pr" ++ [243%N] ++ lit "xima Reserva")
    (lit "elrincondelola_reserva_proxima") host token.

Definition OcupadoBinarySensor (host token : pyval) : entity :=
  Entity (lit "Ocupado") (lit "elrincondelola_ocupado") host token.

(** [data = hass.data[DOMAIN][entry.entry_id]], then [data["host"]] and
    [data["token"]]. *)
Definition stored (entry : config_entry) (hd : domain_data)
  : outcome (pyval * pyval) :=
  match hd with
  | None => RaisesKeyError
  | Some slot =>
      match slot !! entry_id entry with
      | None => RaisesKeyError
      | Some d =>
          match d !! lit "host", d !! lit "token" with
          | Some h, Some t => Done (h, t)
          | _, _ => RaisesKeyError
          end
      end
  end.

(** [sensor.async_setup_entry]: the entities handed to
    [async_add_entities]. *)
Definition sensor_setup_entry (entry : config_entry) (hd : domain_data)
  : outcome (list entity) :=
  match stored entry hd with
  | RaisesKeyError => RaisesKeyError
  | Done (h, t) =>
      Done [ApiPingSensor h t; ReservaHoySensor h t;
            ReservaAnteriorSensor h t; ReservaProximaSensor h t]
  end.

(** [binary_sensor.async_setup_entry] *)
Definition binary_sensor_setup_entry (entry : config_entry) (hd : domain_data)
  : outcome (list entity) :=
  match stored entry hd with
  | RaisesKeyError => RaisesKeyError
  | Done (h, t) => Done [OcupadoBinarySensor h t]
  end.

End Setup.

(** ** Python string operations *)

Section Strings.
Import Py Sse Lines.

Example rstrip_terminators : rstrip [LF] (lit "a" ++ [LF; LF]) = lit "a".
Proof. reflexivity. Qed.

Example rstrip_inner_kept :
  rstrip [LF] (lit "a" ++ [LF] ++ lit "b" ++ [LF]) = lit "a" ++ [LF] ++ lit "b".
Proof. reflexivity. Qed.

Example rstrip_keeps_cr : rstrip [LF] [13; LF]%N = [13%N].
Proof. reflexivity. Qed.

Example lstrip_all : lstrip ([SPACE; TAB; 160; 8195]%N ++ lit "x ") = lit "x ".
Proof. reflexivity. Qed.

Example startswith_yes : startswith (lit "data:x") (lit "data:") = true.
Proof. reflexivity. Qed.

Example startswith_short : startswith (lit "dat") (lit "data:") = false.
Proof. reflexivity. Qed.

(** [rstrip] leaves nothing exactly when every character is stripped. *)
Lemma rstrip_nil (chars s : str) :
  rstrip chars s = [] <-> forallb (fun c => existsb (N.eqb c) chars) s = true.
Proof.
  induction s as [|c s IH]; simpl; [by split|].
  destruct (rstrip chars s) as [|d r].
  - destruct (existsb (N.eqb c) chars); simpl; [exact IH|by split].
  - split; [done|]. intros [_ H]%andb_prop. by apply IH in H.
Qed.

(** [rstrip] removes a suffix made of stripped characters. *)
Lemma rstrip_split (chars s : str) :
  exists tail, s = rstrip chars s ++ tail
               /\ forallb (fun c => existsb (N.eqb c) chars) tail = true.
Proof.
  induction s as [|c s (tail & Hs & Ht)]; [by exists []|]. simpl.
  destruct (rstrip chars s) as [|d r] eqn:E.
  - destruct (existsb (N.eqb c) chars) eqn:Hc.
    + exists (c :: s). split; [done|]. simpl. rewrite Hc. simpl.
      by apply rstrip_nil.
    + exists tail. simpl in Hs. by subst s.
  - exists tail. split; [|done]. simpl. f_equal. exact Hs.
Qed.

(** A blank line is a decoded item holding line feeds only. *)
Lemma is_blank_line_feeds (text : str) :
  is_blank (Decoded text) = true <-> forallb (N.eqb LF) text = true.
Proof.
  assert (forallb (fun c => existsb (N.eqb c) [LF]) text = forallb (N.eqb LF) text)
    as <-.
  { induction text as [|c t IH]; simpl in *; [done|].
    by rewrite IH, orb_false_r, N.eqb_sym. }
  rewrite <- rstrip_nil. unfold is_blank. simpl.
  by destruct (rstrip [LF] text).
Qed.

End Strings.

(** ** The frame parser inside the read loop *)

Section Parser.
Import Py Sse Lines.

Lemma startswith_data_not_colon (l : str) :
  startswith l (lit "data:") = true -> startswith l (lit ":") = false.
Proof.
  destruct l as [|c l]; [discriminate|].
  change (lit "data:") with [100; 97; 116; 97; 58]%N.
  change (lit ":") with [58%N]. cbn [startswith].
  intros H. apply andb_prop in H as [H _]. apply N.eqb_eq in H. by subst c.
Qed.

Lemma on_raw_blank_empty (r : raw) (st : loop_state) :
  is_blank r = true -> on_raw r [] st = (st, []).
Proof.
  destruct r as [|text]; [discriminate|].
  unfold is_blank, on_raw; simpl.
  destruct (rstrip [LF] text); [reflexivity|discriminate].
Qed.

Lemma on_raw_blank_full (r : raw) (buffer : str) (st : loop_state) :
  is_blank r = true -> buffer <> [] ->
  on_raw r buffer st = (after_handover buffer st, []).
Proof.
  destruct r as [|text]; [discriminate|].
  unfold is_blank, on_raw; simpl.
  destruct (rstrip [LF] text); [|discriminate].
  intros _ Hb. destruct buffer; [congruence|]. simpl.
  unfold after_handover, emit, async_write_ha_state, set_native_value, emit; simpl.
  by rewrite <- !app_assoc.
Qed.

Lemma on_raw_not_blank (r : raw) (buffer : str) (st : loop_state) :
  is_blank r = false -> on_raw r buffer st = (st, buffer ++ data_payload r).
Proof.
  destruct r as [|text]; intros Hb.
  - simpl. by rewrite app_nil_r.
  - unfold is_blank, data_payload, on_raw in *. simpl in *.
    destruct (rstrip [LF] text) as [|c l] eqn:E; [discriminate|].
    simpl is_empty. cbv iota.
    destruct (startswith (c :: l) (lit "data:")) eqn:D.
    + by rewrite (startswith_data_not_colon _ D).
    + rewrite app_nil_r. by destruct (startswith (c :: l) (lit ":")).
Qed.

Lemma on_raw_running (r : raw) (buffer : str) (st : loop_state) :
  running (on_raw r buffer st).1 = running st.
Proof.
  destruct (is_blank r) eqn:B.
  - destruct buffer as [|c b].
    + by rewrite on_raw_blank_empty.
    + by rewrite on_raw_blank_full.
  - by rewrite on_raw_not_blank.
Qed.

Lemma on_raw_backoff (r : raw) (buffer : str) (st : loop_state) :
  backoff (on_raw r buffer st).1 = backoff st.
Proof.
  destruct (is_blank r) eqn:B.
  - destruct buffer as [|c b].
    + by rewrite on_raw_blank_empty.
    + by rewrite on_raw_blank_full.
  - by rewrite on_raw_not_blank.
Qed.

Lemma on_raw_keeps (r : raw) (buffer b' : str) (st st' : loop_state) :
  on_raw r buffer st = (st', b') ->
  running st' = running st /\ backoff st' = backoff st.
Proof.
  intros E. pose proof (on_raw_running r buffer st) as H1.
  pose proof (on_raw_backoff r buffer st) as H2.
  by rewrite E in H1, H2.
Qed.

(** While [_running] holds the loop never leaves by [break], and reading
    a concatenation is reading its parts in turn. *)
Lemma read_content_app (c1 c2 : list raw) (buffer : str) (st : loop_state) :
  running st = true ->
  read_content (c1 ++ c2) buffer st =
  read_content c2 (read_content c1 buffer st).1.2 (read_content c1 buffer st).1.1.
Proof.
  revert buffer st. induction c1 as [|r c1 IH]; intros buffer st Hr; [reflexivity|].
  simpl. rewrite Hr. simpl.
  destruct (on_raw r buffer st) as [st' b'] eqn:E.
  apply IH. apply on_raw_keeps in E as [-> _]. done.
Qed.

Lemma read_content_running (c : list raw) (buffer : str) (st : loop_state) :
  running (read_content c buffer st).1.1 = running st.
Proof.
  revert buffer st. induction c as [|r c IH]; intros buffer st; [reflexivity|].
  simpl. destruct (running st) eqn:Hr; simpl; [|done].
  destruct (on_raw r buffer st) as [st' b'] eqn:E.
  rewrite IH. apply on_raw_keeps in E as [-> _]. done.
Qed.

Lemma read_content_backoff (c : list raw) (buffer : str) (st : loop_state) :
  backoff (read_content c buffer st).1.1 = backoff st.
Proof.
  revert buffer st. induction c as [|r c IH]; intros buffer st; [reflexivity|].
  simpl. destruct (running st) eqn:Hr; simpl; [|done].
  destruct (on_raw r buffer st) as [st' b'] eqn:E.
  rewrite IH. by apply on_raw_keeps in E as [_ ->].
Qed.

Lemma read_content_no_break (c : list raw) (buffer : str) (st : loop_state) :
  running st = true -> (read_content c buffer st).2 = false.
Proof.
  revert buffer st. induction c as [|r c IH]; intros buffer st Hr; [reflexivity|].
  simpl. rewrite Hr. simpl.
  destruct (on_raw r buffer st) as [st' b'] eqn:E.
  apply IH. apply on_raw_keeps in E as [-> _]. done.
Qed.

(** Lines none of which is blank only grow the buffer. *)
Lemma read_content_no_blank (c : list raw) (buffer : str) (st : loop_state) :
  running st = true -> forallb (fun r => negb (is_blank r)) c = true ->
  read_content c buffer st = (st, buffer ++ concat (map data_payload c), false).
Proof.
  revert buffer. induction c as [|r c IH]; intros buffer Hr Hc; simpl.
  - by rewrite app_nil_r.
  - simpl in Hc. apply andb_prop in Hc as [Hb Hc].
    rewrite Hr. simpl. rewrite on_raw_not_blank by by destruct (is_blank r).
    rewrite IH by done. by rewrite <- app_assoc.
Qed.

(** With an empty buffer, lines none of which is a [data:] line do
    nothing at all. *)
Lemma read_content_no_data (c : list raw) (st : loop_state) :
  running st = true -> forallb (fun r => negb (is_data r)) c = true ->
  read_content c [] st = (st, [], false).
Proof.
  induction c as [|r c IH]; intros Hr Hc; simpl; [done|].
  simpl in Hc. apply andb_prop in Hc as [Hd Hc].
  rewrite Hr. simpl. destruct (is_blank r) eqn:B.
  - rewrite on_raw_blank_empty by done. by apply IH.
  - rewrite on_raw_not_blank by done.
    replace (data_payload r) with (@nil N); [by apply IH|].
    unfold is_data, data_payload in *. destruct (line_of r); [|done].
    by destruct (startswith l (lit "data:")).
Qed.

End Parser.

Section ParserClaims.
Import Py Sse Lines StreamSamples.

Lemma published_app (t1 t2 : list effect) :
  published (t1 ++ t2) = published t1 ++ published t2.
Proof. apply omap_app. Qed.

Lemma dispatched_app (t1 t2 : list effect) :
  dispatched (t1 ++ t2) = (dispatched t1 + dispatched t2)%nat.
Proof. unfold dispatched. by rewrite omap_app, length_app. Qed.

Lemma blank_not_data (r : raw) : is_blank r = true -> is_data r = false.
Proof.
  unfold is_blank, is_data. destruct (line_of r) as [[|c l]|]; done.
Qed.

Lemma blanks_not_data (blanks : list raw) :
  forallb is_blank blanks = true ->
  forallb (fun r => negb (is_data r)) blanks = true.
Proof.
  induction blanks as [|r rs IH]; simpl; [done|].
  intros [Hr Hrs]%andb_prop. by rewrite (blank_not_data r Hr), IH.
Qed.

(** What one terminated block does to the whole state. *)
Lemma read_block (pre block post : list raw) (blank : raw) (st : loop_state) :
  running st = true ->
  forallb (fun r => negb (is_data r)) pre = true ->
  forallb (fun r => negb (is_blank r)) block = true ->
  is_blank blank = true ->
  forallb (fun r => negb (is_data r)) post = true ->
  concat (map data_payload block) <> [] ->
  read_content (pre ++ block ++ blank :: post) [] st =
  (after_handover (concat (map data_payload block)) st, [], false).
Proof.
  intros Hr Hpre Hblock Hblank Hpost Hne.
  rewrite read_content_app, (read_content_no_data pre) by done. simpl.
  rewrite read_content_app, (read_content_no_blank block) by done. simpl.
  rewrite Hr. simpl. rewrite on_raw_blank_full by done.
  by apply read_content_no_data.
Qed.

(** An empty block does nothing to the state. *)
Lemma read_empty_block (pre block post : list raw) (blank : raw)
    (st : loop_state) :
  running st = true ->
  forallb (fun r => negb (is_data r)) pre = true ->
  forallb (fun r => negb (is_blank r)) block = true ->
  is_blank blank = true ->
  forallb (fun r => negb (is_data r)) post = true ->
  concat (map data_payload block) = [] ->
  read_content (pre ++ block ++ blank :: post) [] st = (st, [], false).
Proof.
  intros Hr Hpre Hblock Hblank Hpost He.
  rewrite read_content_app, (read_content_no_data pre) by done. simpl.
  rewrite read_content_app, (read_content_no_blank block) by done. simpl.
  rewrite Hr, He. simpl. rewrite on_raw_blank_empty by done.
  by apply read_content_no_data.
Qed.

(** C2 (amended). A sequence of raw lines with exactly one [data:] block
    closed by a blank line — lines without any [data:] line before it, then
    the block (no blank line inside), the blank line, then again lines
    without any [data:] line — makes the read loop hand over exactly one
    event, provided the concatenation of the block's payloads is not
    empty.  The event is that concatenation, no separator inserted, of the
    texts after [data:] with their leading white space removed; it becomes
    the native value and is dispatched once.  When the concatenation is
    empty, nothing is handed over and the state is left as it was. *)
Theorem one_block_one_event
    (pre block post : list raw) (blank : raw) (st : loop_state) :
  running st = true ->
  forallb (fun r => negb (is_data r)) pre = true ->
  forallb (fun r => negb (is_blank r)) block = true ->
  is_blank blank = true ->
  forallb (fun r => negb (is_data r)) post = true ->
  let payload := concat (map data_payload block) in
  let st' := (read_content (pre ++ block ++ blank :: post) [] st).1.1 in
  (payload <> [] ->
     published (effects st') = published (effects st) ++ [Some payload]
     /\ dispatched (effects st') = S (dispatched (effects st))
     /\ attr_native_value st' = Some payload)
  /\ (payload = [] -> st' = st).
Proof.
  intros Hr Hpre Hblock Hblank Hpost payload st'. split; intros Hp.
  - unfold st'. rewrite read_block by done. simpl.
    rewrite published_app, dispatched_app.
    change (dispatched (handover _)) with 1%nat.
    split_and!; [done|lia|done].
  - unfold st'. by rewrite read_empty_block.
Qed.

Lemma one_block_one_event_witness :
  published (effects (read_content
      ([line ": ping"; line "event: update"] ++
       [line "data: mesa 4"; line "data:ocupada"] ++
       line "" :: [line ""; line "id: 7"]) [] initial).1.1)
  = [Some (lit "mesa 4ocupada")].
Proof.
  destruct (one_block_one_event
    [line ": ping"; line "event: update"]
    [line "data: mesa 4"; line "data:ocupada"]
    [line ""; line "id: 7"] (line "") initial) as [H _]; [reflexivity..|].
  apply H. discriminate.
Defined.

(** C2, as stated, fails when every payload of the block is empty: the
    block [data:] followed by a blank line produces no event at all. *)
Lemma empty_block_emits_nothing :
  forallb is_data [line "data:"] = true
  /\ published (effects (read_content ([line "data:"] ++ [line ""]) []
                           initial).1.1) = []
  /\ published (effects (read_content ([line "data:"] ++ [line ""]) []
                           initial).1.1)
     <> [Some (concat (map data_payload [line "data:"]))].
Proof. split_and!; [reflexivity|reflexivity|discriminate]. Qed.

Lemma startswith_split (l p : str) :
  startswith l p = true -> l = p ++ slice_from (length p) l.
Proof.
  revert l. induction p as [|c p IH]; intros l; [done|].
  destruct l as [|d l]; [done|]. cbn [startswith].
  intros [Hc Hp]%andb_prop. apply N.eqb_eq in Hc as ->.
  simpl. f_equal. by apply IH.
Qed.

Lemma lstrip_split (s : str) :
  exists ws, s = ws ++ lstrip s /\ forallb isspace ws = true.
Proof.
  induction s as [|c s [ws [Hs Hws]]]; [by exists []|].
  simpl. destruct (isspace c) eqn:Hc.
  - exists (c :: ws). simpl. rewrite Hc, Hws. split; [by f_equal|done].
  - by exists [].
Qed.

Lemma lstrip_head (s : str) :
  match lstrip s with [] => True | c :: _ => isspace c = false end.
Proof.
  induction s as [|c s IH]; [done|]. simpl.
  destruct (isspace c) eqn:Hc; [done|]. by simpl.
Qed.

(** C3 (amended). For a raw line that starts with [data:] the loop body
    appends, and does nothing else: the appended text is what follows the
    prefix with all of its leading white space removed (every leading
    space, tab or other character [str.lstrip] strips), so the appended
    text never begins with white space. *)
Theorem data_line_appends (text buffer : str) (st : loop_state) :
  startswith (rstrip [LF] text) (lit "data:") = true ->
  exists ws appended,
    on_raw (Decoded text) buffer st = (st, buffer ++ appended)
    /\ rstrip [LF] text = lit "data:" ++ ws ++ appended
    /\ forallb isspace ws = true
    /\ match appended with [] => True | c :: _ => isspace c = false end.
Proof.
  intros Hd. destruct (lstrip_split (slice_from 5 (rstrip [LF] text)))
    as [ws [Hs Hws]].
  exists ws, (lstrip (slice_from 5 (rstrip [LF] text))). split_and!.
  - rewrite on_raw_not_blank.
    + unfold data_payload. simpl. by rewrite Hd.
    + unfold is_blank. simpl. by destruct (rstrip [LF] text).
  - rewrite <- Hs. by apply (startswith_split _ (lit "data:")).
  - done.
  - apply lstrip_head.
Qed.

Lemma data_line_appends_witness :
  exists ws appended,
    on_raw (Decoded indented) (lit "a") initial = (initial, lit "a" ++ appended)
    /\ rstrip [LF] indented = lit "data:" ++ ws ++ appended
    /\ forallb isspace ws = true
    /\ match appended with [] => True | c :: _ => isspace c = false end.
Proof. apply (data_line_appends indented (lit "a") initial). reflexivity. Defined.

(** C3, as stated, fails on a line with two spaces after the prefix: the
    spec's rule would keep the second space, the loop appends ["x"]. *)
Lemma two_spaces_both_stripped :
  startswith (rstrip [LF] two_spaces) (lit "data:") = true
  /\ (on_raw (Decoded two_spaces) [] initial).2 = lit "x"
  /\ strip_single_space (slice_from 5 (rstrip [LF] two_spaces)) = lit " x"
  /\ (on_raw (Decoded two_spaces) [] initial).2
     <> strip_single_space (slice_from 5 (rstrip [LF] two_spaces)).
Proof. split_and!; [reflexivity..|discriminate]. Qed.

End ParserClaims.

(** ** The reconnection loop *)

Section Loop.
Import Py Sse Lines StreamSamples.

Lemma published_handover (buffer : str) (st : loop_state) :
  published (effects (after_handover buffer st)) =
  published (effects st) ++ [Some buffer].
Proof. unfold after_handover. simpl. by rewrite published_app. Qed.

(** *** The invariant *)

Lemma inv_emit (e : effect) (st : loop_state) :
  inv st -> effect_ok e = true -> inv (emit e st).
Proof.
  intros [Hb Ht] He. split; [done|]. simpl.
  by rewrite forallb_app, Ht; simpl; rewrite He.
Qed.

Lemma inv_set_backoff (b : Z) (st : loop_state) :
  inv st -> FLOOR <= b <= CEILING -> inv (set_backoff b st).
Proof. by intros [_ Ht] Hb. Qed.

Lemma inv_on_raw (r : raw) (buffer : str) (st : loop_state) :
  inv st -> inv (on_raw r buffer st).1.
Proof.
  intros Hi. destruct (is_blank r) eqn:B.
  - destruct buffer as [|c b].
    + by rewrite on_raw_blank_empty.
    + rewrite on_raw_blank_full by done. destruct Hi as [Hb Ht].
      split; [done|]. simpl. by rewrite forallb_app, Ht.
  - by rewrite on_raw_not_blank.
Qed.

Lemma inv_read_content (c : list raw) (buffer : str) (st : loop_state) :
  inv st -> inv (read_content c buffer st).1.1.
Proof.
  revert buffer st. induction c as [|r c IH]; intros buffer st Hi; [done|].
  simpl. destruct (running st); simpl; [|done].
  pose proof (inv_on_raw r buffer st Hi) as Hi'.
  destruct (on_raw r buffer st) as [st' b']. by apply IH.
Qed.

Lemma inv_sleep_and_double (a : attempt) (st : loop_state) :
  inv st -> inv (sleep_and_double a st).1.
Proof.
  intros Hi. unfold sleep_and_double.
  assert (inv (emit (Sleep (backoff st) (jitter_delay (backoff st) (now a))) st))
    as Hs.
  { apply inv_emit; [done|]. simpl. apply Z.leb_le. apply Hi. }
  destruct (sleep a); simpl; [|done].
  apply inv_set_backoff; [done|]. destruct Hi as [Hb _].
  unfold FLOOR, CEILING in *. simpl. lia.
Qed.

Lemma inv_iteration (a : attempt) (st : loop_state) :
  inv st -> inv (iteration a st).1.
Proof.
  intros Hi. unfold iteration, on_exception.
  assert (inv (emit (Log DebugConnecting) st)) as H0 by by apply inv_emit.
  destruct (conn a) as [| |status content fin].
  - by apply inv_sleep_and_double, inv_emit.
  - done.
  - assert (inv (emit (Log (DebugStatus status)) (emit (Log DebugConnecting) st)))
      as H1 by by apply inv_emit.
    destruct (negb (status =? 200)).
    + apply inv_sleep_and_double. destruct (status =? 401); [|done].
      by apply inv_emit.
    + set (st1 := set_backoff 5 _).
      assert (inv st1) as H2 by (by apply inv_set_backoff).
      pose proof (inv_read_content content [] st1 H2) as H3.
      destruct (read_content content [] st1) as [[st2 b2] broke]. simpl in H3.
      destruct broke; [done|]. destruct fin; [done| |done].
      by apply inv_sleep_and_double, inv_emit.
Qed.

Lemma inv_listen_sse (script : list attempt) (st : loop_state) :
  inv st -> inv (listen_sse script st).1.
Proof.
  revert st. induction script as [|a rest IH]; intros st Hi; simpl.
  - by destruct (running st).
  - destruct (running st); simpl; [|done].
    pose proof (inv_iteration a st Hi) as Hi'.
    destruct (iteration a st) as [st' [|]]; [by apply IH|done].
Qed.

Lemma inv_initial : inv initial.
Proof. done. Qed.

Lemma effect_ok_published (tr : list effect) :
  forallb effect_ok tr = true -> forallb is_event (published tr) = true.
Proof.
  induction tr as [|e tr IH]; [done|]. simpl.
  intros [He Htr]%andb_prop. destruct e; simpl; auto.
  simpl in He. by rewrite He, IH.
Qed.

(** *** Blank lines *)

(** C7. A blank line met with an empty buffer changes nothing and emits
    nothing; a run of consecutive blank lines, whatever the buffer holds
    when it starts, publishes at most one event; and no value the loop
    ever publishes is the empty string (nor [None]): not over any content
    read from a state whose earlier events are non-empty, and not over any
    whole run of the listener. *)
Theorem blank_lines_collapse :
  (forall r st, is_blank r = true -> on_raw r [] st = (st, []))
  /\ (forall blanks buffer st,
        running st = true -> forallb is_blank blanks = true ->
        exists evs,
          published (effects (read_content blanks buffer st).1.1)
            = published (effects st) ++ evs
          /\ (length evs <= 1)%nat)
  /\ (forall content buffer st,
        forallb is_event (published (effects st)) = true ->
        forallb is_event
          (published (effects (read_content content buffer st).1.1)) = true)
  /\ (forall script,
        forallb is_event
          (published (effects (listen_sse script initial).1)) = true).
Proof.
  split_and!.
  - apply on_raw_blank_empty.
  - intros blanks buffer st Hr Hb.
    destruct buffer as [|c b].
    + exists []. rewrite read_content_no_data by by try apply blanks_not_data.
      simpl. split; [by rewrite app_nil_r|lia].
    + destruct blanks as [|r rs].
      * exists []. simpl. split; [by rewrite app_nil_r|lia].
      * exists [Some (c :: b)]. simpl in Hb. apply andb_prop in Hb as [Hb1 Hb2].
        simpl. rewrite Hr. simpl. rewrite on_raw_blank_full by done.
        rewrite read_content_no_data by by try apply blanks_not_data.
        split; [apply published_handover|simpl; lia].
  - intros content. induction content as [|r rs IH]; intros buffer st Hst; [done|].
    simpl. destruct (running st); simpl; [|done].
    destruct (is_blank r) eqn:B.
    + destruct buffer as [|c b].
      * rewrite on_raw_blank_empty by done. by apply IH.
      * rewrite on_raw_blank_full by done. apply IH.
        rewrite published_handover, forallb_app, Hst. done.
    + rewrite on_raw_not_blank by done. by apply IH.
  - intros script. apply effect_ok_published.
    apply (inv_listen_sse script initial inv_initial).
Qed.

Lemma blank_lines_collapse_witness :
  on_raw (line "") [] initial = (initial, [])
  /\ (exists evs,
        published (effects (read_content [line ""; line ""; line ""]
                              (lit "mesa 4") initial).1.1)
          = published (effects initial) ++ evs
        /\ (length evs <= 1)%nat)
  /\ forallb is_event
       (published (effects (read_content [line "data: a"; line ""; line ""]
                              [] initial).1.1)) = true
  /\ forallb is_event
       (published (effects (listen_sse [closed; cut [line ""]] initial).1)) = true.
Proof.
  destruct blank_lines_collapse as (H1 & H2 & H3 & H4). split_and!.
  - apply H1. reflexivity.
  - apply H2; reflexivity.
  - apply H3. reflexivity.
  - apply H4.
Defined.

(** C8. Across any script of connection outcomes — failures, successes,
    cancellations, in any order — the backoff stored by the listener never
    exceeds the ceiling of 300 seconds (nor falls below the floor of 5),
    and every sleep the loop has entered was computed from a backoff
    within the ceiling. *)
Theorem backoff_never_exceeds_ceiling (script : list attempt) :
  FLOOR <= backoff (listen_sse script initial).1 <= CEILING
  /\ forallb sleep_capped (effects (listen_sse script initial).1) = true.
Proof.
  destruct (inv_listen_sse script initial inv_initial) as [Hb Ht].
  split; [done|]. apply forallb_forall. intros e He.
  eapply (proj1 (forallb_forall _ _)) in Ht; [|exact He].
  by destruct e.
Qed.

End Loop.

(** ** Backoff arithmetic and the retry path *)

Section Backoff.
Import Py Sse Lines StreamSamples.

Lemma sleep_and_double_slept (a : attempt) (st : loop_state) :
  sleep a = Slept ->
  sleep_and_double a st =
  (LoopState (running st) (Z.min (backoff st * 2) 300) (attr_native_value st)
     (effects st ++ [Sleep (backoff st) (jitter_delay (backoff st) (now a))]),
   Normal).
Proof. intros Hs. unfold sleep_and_double. by rewrite Hs. Qed.

Lemma iteration_refused (a : attempt) (st : loop_state) :
  refused a = true ->
  (iteration a st).2 = Normal
  /\ running (iteration a st).1 = running st
  /\ backoff (iteration a st).1 = Z.min (backoff st * 2) 300.
Proof.
  unfold refused, iteration, on_exception.
  destruct (sleep a) eqn:Hs; [|done].
  destruct (conn a) as [| |status content fin]; [|done|].
  - intros _. by rewrite sleep_and_double_slept.
  - intros Hst. rewrite Hst.
    by destruct (status =? 401); rewrite sleep_and_double_slept.
Qed.

Lemma double_capped (b : Z) (n : nat) :
  Z.min (Z.min (b * 2) 300 * 2 ^ Z.of_nat n) 300 =
  Z.min (b * 2 ^ Z.of_nat (S n)) 300.
Proof.
  rewrite Nat2Z.inj_succ, Z.pow_succ_r by lia.
  assert (0 < 2 ^ Z.of_nat n) by (apply Z.pow_pos_nonneg; lia).
  nia.
Qed.

Lemma listen_sse_refused (script : list attempt) (st : loop_state) :
  running st = true -> backoff st <= 300 -> forallb refused script = true ->
  (listen_sse script st).2 = Reconnecting
  /\ running (listen_sse script st).1 = true
  /\ backoff (listen_sse script st).1 =
     Z.min (backoff st * 2 ^ Z.of_nat (length script)) 300.
Proof.
  revert st. induction script as [|a rest IH]; intros st Hr Hc Hs.
  - simpl. rewrite Hr. simpl. split_and!; [done..|lia].
  - simpl in Hs. apply andb_prop in Hs as [Ha Hrest].
    destruct (iteration_refused a st Ha) as (H1 & H2 & H3).
    cbn [listen_sse]. rewrite Hr. simpl negb. cbv iota.
    destruct (iteration a st) as [st' c]. simpl in H1, H2, H3. subst c.
    rewrite Hr in H2.
    destruct (IH st' H2 ltac:(lia) Hrest) as (Ho & Hrun & Hb).
    split_and!; [done..|]. rewrite Hb, H3. apply double_capped.
Qed.

Lemma iteration_streamed (content : list raw) (fin : ending) (t : Float64.float)
    (s : sleep_outcome) (st : loop_state) :
  running st = true ->
  let a := Attempt (Response 200 content fin) t s in
  running (iteration a st).1 = true
  /\ match fin, s with
     | EndOfStream, _ =>
         (iteration a st).2 = Normal /\ backoff (iteration a st).1 = 5
     | ReadException, Slept =>
         (iteration a st).2 = Normal /\ backoff (iteration a st).1 = 10
     | _, _ => (iteration a st).2 = RaisedCancelled
     end.
Proof.
  intros Hr a. unfold a, iteration, on_exception. simpl.
  set (st1 := set_backoff 5 _).
  pose proof (read_content_no_break content [] st1 Hr) as Hb.
  pose proof (read_content_running content [] st1) as Hrun.
  pose proof (read_content_backoff content [] st1) as Hbk.
  destruct (read_content content [] st1) as [[st2 b2] broke].
  simpl in *. subst broke. rewrite Hr in Hrun.
  destruct fin; simpl; [done| |done].
  unfold sleep_and_double. simpl. destruct s; simpl; [|done].
  rewrite Hbk. done.
Qed.

(** C1 (amended). Failures double the backoff the loop holds at that
    moment, up to the ceiling, and that starting value is the floor only
    right after a connect that returned HTTP 200:
    - from any state where the loop runs with a backoff [b] within the
      ceiling, after [N]
      consecutive failed passes that never saw HTTP 200 (the request
      raised, or the status was not 200) the backoff is
      [min (b * 2^N) 300];
    - the loop starts with a backoff of 10, so counted from the start the
      value is [min (10 * 2^N) 300];
    - a pass that gets HTTP 200 sets the backoff to 5: if its stream just
      ends the backoff is 5, and [N] failed passes after it give
      [min (5 * 2^N) 300];
    - if the stream of the HTTP 200 pass ends with a read exception, that
      exception is the first failure after the reset: counting it, [N + 1]
      failures give [min (5 * 2^(N + 1)) 300]. *)
Theorem backoff_after_failures :
  (forall script st,
     running st = true -> backoff st <= CEILING ->
     forallb refused script = true ->
     backoff (listen_sse script st).1 =
     Z.min (backoff st * 2 ^ Z.of_nat (length script)) CEILING)
  /\ (forall script,
        forallb refused script = true ->
        backoff (listen_sse script initial).1 =
        Z.min (10 * 2 ^ Z.of_nat (length script)) CEILING)
  /\ (forall content t s script st,
        running st = true -> forallb refused script = true ->
        backoff (listen_sse
                   (Attempt (Response 200 content EndOfStream) t s :: script) st).1
        = Z.min (FLOOR * 2 ^ Z.of_nat (length script)) CEILING)
  /\ (forall content t script st,
        running st = true -> forallb refused script = true ->
        backoff (listen_sse
                   (Attempt (Response 200 content ReadException) t Slept :: script)
                   st).1
        = Z.min (FLOOR * 2 ^ Z.of_nat (1 + length script)) CEILING).
Proof.
  split_and!.
  - intros script st Hr Hc Hs. by apply listen_sse_refused.
  - intros script Hs. by apply (listen_sse_refused script initial).
  - intros content t s script st Hr Hs. cbn [listen_sse]. rewrite Hr.
    simpl negb. cbv iota.
    destruct (iteration_streamed content EndOfStream t s st Hr) as (H1 & H2 & H3).
    destruct (iteration _ st) as [st' c]. simpl in H1, H2, H3. subst c.
    destruct (listen_sse_refused script st' H1 ltac:(lia) Hs) as (_ & _ & ->).
    by rewrite H3.
  - intros content t script st Hr Hs. cbn [listen_sse]. rewrite Hr.
    simpl negb. cbv iota.
    destruct (iteration_streamed content ReadException t Slept st Hr)
      as (H1 & H2 & H3).
    destruct (iteration _ st) as [st' c]. simpl in H1, H2, H3. subst c.
    destruct (listen_sse_refused script st' H1 ltac:(lia) Hs) as (_ & _ & ->).
    rewrite H3. change (1 + length script)%nat with (S (length script)).
    rewrite Nat2Z.inj_succ, Z.pow_succ_r by lia. unfold FLOOR, CEILING.
    f_equal. lia.
Qed.

Lemma backoff_after_failures_witness :
  backoff (listen_sse [down; lost; down] (set_backoff 7 initial)).1
    = Z.min (7 * 2 ^ 3) CEILING
  /\ backoff (listen_sse [down; lost] initial).1 = Z.min (10 * 2 ^ 2) CEILING
  /\ backoff (listen_sse (closed :: [lost; lost; down]) initial).1
     = Z.min (FLOOR * 2 ^ 3) CEILING
  /\ backoff (listen_sse (broken :: [lost]) initial).1
     = Z.min (FLOOR * 2 ^ 2) CEILING.
Proof.
  destruct backoff_after_failures as (H1 & H2 & H3 & H4).
  split_and!.
  - apply (H1 [down; lost; down] (set_backoff 7 initial));
      [reflexivity|unfold CEILING; simpl; lia|reflexivity].
  - apply (H2 [down; lost]). reflexivity.
  - apply (H3 [line "data: c"; line ""] Float64.zero Slept [lost; lost; down] initial);
      reflexivity.
  - apply (H4 [] Float64.zero [lost] initial); reflexivity.
Defined.

(** C1, as stated, fails from the start of the loop, where the backoff
    is 10 and not the floor: one failure gives 20, not [min (5 * 2) 300].
    It also fails for read exceptions, each of which follows a reset: two
    of them in a row leave 10, not [min (5 * 4) 300]. *)
Lemma first_failure_doubles_ten :
  backoff (listen_sse [down] initial).1 = 20
  /\ backoff (listen_sse [down] initial).1
     <> Z.min (FLOOR * 2 ^ Z.of_nat (length [down])) CEILING
  /\ backoff (listen_sse [broken; broken] initial).1 = 10
  /\ backoff (listen_sse [broken; broken] initial).1
     <> Z.min (FLOOR * 2 ^ Z.of_nat (length [broken; broken])) CEILING.
Proof. split_and!; [reflexivity|discriminate|reflexivity|discriminate]. Qed.

(** *** The jittered delay *)

(** The literals are the floats nearest to 8/10 and 4/10, and [x % 1] and
    the delay take the values Python gives: [1.25 % 1] is [0.25], [0.1 % 1]
    is [0.1] itself, [-0.25 % 1] is [0.75], a whole number leaves [0.0];
    with a backoff of 10 the delay is [8.0] on a whole second, [9.0] a
    quarter of a second later and [12.0] at the last float below the next
    second; with the backoff at the ceiling and the clock on a half second
    it is [300.0]. *)
Example jitter_delay_values :
  SFdiv Float64.prec Float64.emax (Float64.of_int 8) (Float64.of_int 10)
    = Float64.lit_0_8
  /\ SFdiv Float64.prec Float64.emax (Float64.of_int 4) (Float64.of_int 10)
    = Float64.lit_0_4
  /\ Float64.mod_one (S754_finite false 5629499534213120 (-52))
     = S754_finite false 4503599627370496 (-54)
  /\ Float64.mod_one (S754_finite false 7205759403792794 (-56))
     = S754_finite false 7205759403792794 (-56)
  /\ Float64.mod_one (S754_finite true 4503599627370496 (-54))
     = S754_finite false 6755399441055744 (-53)
  /\ Float64.mod_one (S754_finite false 6755399441055744 (-51))
     = S754_zero false
  /\ jitter_delay 10 (S754_finite false 6755399441055744 (-51))
     = S754_finite false 4503599627370496 (-49)
  /\ jitter_delay 10 (S754_finite false 5629499534213120 (-52))
     = S754_finite false 5066549580791808 (-49)
  /\ jitter_delay 10 (S754_finite false 9007199254740991 (-53))
     = S754_finite false 6755399441055744 (-49)
  /\ jitter_delay 300 (S754_finite false 4503599627370496 (-53))
     = S754_finite false 5277655813324800 (-44).
Proof. split_and!; vm_compute; reflexivity. Qed.



(** *** Partial blocks *)

Lemma iteration_drops_tail (content tail : list raw) (fin : ending) (t : Float64.float)
    (s : sleep_outcome) (st : loop_state) :
  running st = true ->
  forallb (fun r => negb (is_blank r)) tail = true ->
  iteration (Attempt (Response 200 (content ++ tail) fin) t s) st =
  iteration (Attempt (Response 200 content fin) t s) st.
Proof.
  intros Hr Ht. unfold iteration. simpl.
  set (st1 := set_backoff 5 _).
  assert (running st1 = true) as Hr1 by done.
  rewrite read_content_app by done.
  pose proof (read_content_no_break content [] st1 Hr1) as Hb.
  pose proof (read_content_running content [] st1) as Hrun.
  destruct (read_content content [] st1) as [[st2 b2] broke].
  simpl in *. subst broke. rewrite Hr1 in Hrun.
  by rewrite read_content_no_blank.
Qed.

(** C9. A [data:] block that is still open when the connection ends —
    lines after the last blank line, none of them blank — leaves no mark
    anywhere in the run, however the stream ends (server close, read
    exception or cancellation): the listener ends in the same state, with
    the same native value and the same effects (the same events published
    and dispatched, in this pass and in every later one), as if those
    lines had never arrived.  The buffer is local to a connection: the
    next one starts from the empty buffer. *)
Theorem partial_block_dropped (before after : list attempt)
    (content tail : list raw) (fin : ending) (t : Float64.float) (s : sleep_outcome)
    (st : loop_state) :
  forallb (fun r => negb (is_blank r)) tail = true ->
  listen_sse
    (before ++ Attempt (Response 200 (content ++ tail) fin) t s :: after) st
  = listen_sse
      (before ++ Attempt (Response 200 content fin) t s :: after) st.
Proof.
  intros Ht. revert st. induction before as [|a before IH]; intros st.
  - cbn [app listen_sse]. destruct (running st) eqn:Hr; [|done].
    simpl negb. cbv iota. by rewrite iteration_drops_tail.
  - cbn [app listen_sse]. destruct (running st); [|done].
    simpl negb. cbv iota. destruct (iteration a st) as [st' [|]]; [apply IH|done].
Qed.

Lemma partial_block_dropped_witness :
  listen_sse ([closed] ++ cut [line "data: b"; line ": ping"] :: [closed]) initial
  = listen_sse ([closed] ++ cut [] :: [closed]) initial
  /\ published (effects (listen_sse ([closed] ++ cut [] :: [closed]) initial).1)
     = [Some (lit "c"); Some (lit "a"); Some (lit "c")].
Proof.
  split; [|reflexivity]. unfold cut.
  rewrite (partial_block_dropped [closed] [closed] [line "data: a"; line ""]
             [line "data: b"; line ": ping"] ReadException Float64.zero Slept initial).
  - by rewrite app_nil_r.
  - reflexivity.
Defined.

End Backoff.

(** ** The snapshot fetchers *)

Section Fetchers.
Import Py Fetch Snapshots SnapshotSamples.
Local Open Scope string_scope.
Local Open Scope Z_scope.

Lemma fetch_failed (endpoint : str) (resp : response) :
  failed resp = true ->
  exists e, fetch endpoint resp = inl [e] /\ e <> WriteHaState.
Proof.
  destruct resp as [|status content]; simpl.
  - intros _. by eexists.
  - destruct (negb (status =? 200)); simpl.
    + intros _. by eexists.
    + destruct content; [|done]. intros _. by eexists.
Qed.

Lemma fetch_ok (endpoint : str) (data : gmap str pyval) :
  fetch endpoint (ok data) = inr (PDict data).
Proof. reflexivity. Qed.

(** C4. For each of the four fetchers, when the GET answers with a status
    other than 200, or the request or the JSON parse raises, the refresh
    returns normally with the fetcher's state — [is_on] or the native
    value, and the whole attribute dict — exactly as it was; it only logs
    one debug record and does not write the state out. *)
Theorem failed_refresh_keeps_state (resp : response)
    (b : binary_state) (s : sensor_state) :
  failed resp = true ->
  (exists e, Ocupado_refresh resp b = (b, [e], Returns) /\ e <> WriteHaState)
  /\ (exists e, ReservaHoy_refresh resp s = (s, [e], Returns) /\ e <> WriteHaState)
  /\ (exists e, ReservaAnterior_refresh resp s = (s, [e], Returns)
                /\ e <> WriteHaState)
  /\ (exists e, ReservaProxima_refresh resp s = (s, [e], Returns)
                /\ e <> WriteHaState).
Proof.
  intros Hf. split_and!.
  - destruct (fetch_failed (lit "/api/today") resp Hf) as (e & He & Hw).
    exists e. unfold Ocupado_refresh. by rewrite He.
  - destruct (fetch_failed (lit "/api/today") resp Hf) as (e & He & Hw).
    exists e. unfold ReservaHoy_refresh. by rewrite He.
  - destruct (fetch_failed (lit "/api/prev") resp Hf) as (e & He & Hw).
    exists e. unfold ReservaAnterior_refresh, ReservaBase_refresh. by rewrite He.
  - destruct (fetch_failed (lit "/api/next") resp Hf) as (e & He & Hw).
    exists e. unfold ReservaProxima_refresh, ReservaBase_refresh. by rewrite He.
Qed.

Lemma failed_refresh_keeps_state_witness :
  (exists e, Ocupado_refresh (Status 503 JsonRaises) occupied
             = (occupied, [e], Returns) /\ e <> WriteHaState)
  /\ (exists e, ReservaProxima_refresh (Status 200 JsonRaises) shown
                = (shown, [e], Returns) /\ e <> WriteHaState).
Proof.
  split.
  - apply (failed_refresh_keeps_state (Status 503 JsonRaises) occupied shown
             eq_refl).
  - apply (failed_refresh_keeps_state (Status 200 JsonRaises) occupied shown
             eq_refl).
Defined.

(** C5 (amended). On a 200 response whose JSON object has
    [has_reservation = false], every fetcher writes its state out with its
    "none" marker: Ocupado is off, Reserva Hoy is ["Libre"], Reserva
    Anterior and Reserva Próxima are ["Ninguna"].  Ocupado, Anterior and
    Próxima publish the payload's raw [user_name] under the attribute
    [nombre] ([None] when the field is null or missing).  Reserva Hoy
    publishes no user-name attribute: its attributes are exactly
    [cumpleanos], [festivo] and [foto_perfil_url]. *)
Theorem no_reservation_snapshot (data : gmap str pyval)
    (b : binary_state) (s : sensor_state) :
  data !! lit "has_reservation" = Some (PBool false) ->
  (exists b', Ocupado_refresh (ok data) b = (b', [WriteHaState], Returns)
     /\ is_on b' = false
     /\ battrs b' !! lit "nombre" = Some (get data "user_name"))
  /\ (exists s', ReservaHoy_refresh (ok data) s = (s', [WriteHaState], Returns)
        /\ attr_native_value s' = PStr (lit "Libre")
        /\ dom (attrs s')
           = {[lit "cumpleanos"; lit "festivo"; lit "foto_perfil_url"]})
  /\ (exists s', ReservaAnterior_refresh (ok data) s = (s', [WriteHaState], Returns)
        /\ attr_native_value s' = PStr (lit "Ninguna")
        /\ attrs s' !! lit "nombre" = Some (get data "user_name"))
  /\ (exists s', ReservaProxima_refresh (ok data) s = (s', [WriteHaState], Returns)
        /\ attr_native_value s' = PStr (lit "Ninguna")
        /\ attrs s' !! lit "nombre" = Some (get data "user_name"))
  /\ (absent_or_null data "user_name" -> get data "user_name" = PNone).
Proof.
  intros Hres. split_and!.
  - eexists. unfold Ocupado_refresh. rewrite fetch_ok.
    unfold get_or. rewrite Hres. simpl. split_and!; [reflexivity|done|].
    by vm_compute.
  - eexists. unfold ReservaHoy_refresh. rewrite fetch_ok.
    unfold get at 1. rewrite Hres. simpl. split_and!; [reflexivity|done|].
    unfold dict. simpl. rewrite !dom_insert_L, dom_empty_L. set_solver.
  - eexists. unfold ReservaAnterior_refresh, ReservaBase_refresh.
    rewrite fetch_ok. unfold get at 1. rewrite Hres. simpl.
    split_and!; [reflexivity|done|]. by vm_compute.
  - eexists. unfold ReservaProxima_refresh, ReservaBase_refresh.
    rewrite fetch_ok. unfold get at 1. rewrite Hres. simpl.
    split_and!; [reflexivity|done|]. by vm_compute.
  - unfold get. by intros [->| ->].
Qed.

Lemma no_reservation_snapshot_witness :
  (exists b', Ocupado_refresh (ok free) Ocupado_init
              = (b', [WriteHaState], Returns)
     /\ is_on b' = false
     /\ battrs b' !! lit "nombre" = Some (get free "user_name"))
  /\ get free "user_name" = PNone.
Proof.
  destruct (no_reservation_snapshot free Ocupado_init sensor_init eq_refl)
    as (H1 & _ & _ & _ & H5).
  split; [exact H1|]. apply H5. right. reflexivity.
Defined.

(** C5, as stated, fails for Reserva Hoy: with no reservation and a
    payload whose [user_name] is ["Ana"], the sensor shows ["Libre"] and
    its attributes hold neither a [nombre] nor a [user_name] entry. *)
Lemma reserva_hoy_has_no_name_attribute :
  get free_named "user_name" = PStr (lit "Ana")
  /\ (ReservaHoy_refresh (ok free_named) sensor_init).1.1
     = SensorState (PStr (lit "Libre"))
         (dict [("cumpleanos", PBool false); ("festivo", PBool false);
                ("foto_perfil_url", PNone)])
  /\ attrs (ReservaHoy_refresh (ok free_named) sensor_init).1.1 !! lit "nombre"
     <> Some (get free_named "user_name")
  /\ attrs (ReservaHoy_refresh (ok free_named) sensor_init).1.1 !! lit "user_name"
     <> Some (get free_named "user_name").
Proof. split_and!; [reflexivity..|by vm_compute|by vm_compute]. Qed.

(** C10. For Reserva Anterior and Reserva Próxima (any [_ReservaBase]
    endpoint), on a 200 response whose [has_reservation] is truthy while
    [user_name] and [date] are each missing or null, the state written out
    is the unknown marker ["Desconocido"] — not ["Ninguna"], not [None]. *)
Theorem reserved_without_name_or_date (data : gmap str pyval)
    (s : sensor_state) :
  truthy (get data "has_reservation") = true ->
  absent_or_null data "user_name" ->
  absent_or_null data "date" ->
  let unknown := PStr (lit "Desconocido") in
  (forall endpoint,
     exists s', ReservaBase_refresh endpoint (ok data) s
                = (s', [WriteHaState], Returns)
                /\ attr_native_value s' = unknown)
  /\ attr_native_value (ReservaAnterior_refresh (ok data) s).1.1 = unknown
  /\ attr_native_value (ReservaProxima_refresh (ok data) s).1.1 = unknown
  /\ unknown <> PStr (lit "Ninguna")
  /\ unknown <> PNone.
Proof.
  intros Hres Hname Hdate unknown.
  assert (get data "user_name" = PNone) as Hn
    by (unfold get; by destruct Hname as [->| ->]).
  assert (get data "date" = PNone) as Hd
    by (unfold get; by destruct Hdate as [->| ->]).
  assert (forall endpoint,
     exists s', ReservaBase_refresh endpoint (ok data) s
                = (s', [WriteHaState], Returns)
                /\ attr_native_value s' = unknown) as Hall.
  { intros endpoint. eexists. unfold ReservaBase_refresh. rewrite fetch_ok.
    rewrite Hres, Hn, Hd. simpl. split; reflexivity. }
  split_and!; [done| | |done|done].
  - destruct (Hall "/api/prev") as (s' & E & Hv).
    unfold ReservaAnterior_refresh. by rewrite E.
  - destruct (Hall "/api/next") as (s' & E & Hv).
    unfold ReservaProxima_refresh. by rewrite E.
Qed.

Lemma reserved_without_name_or_date_witness :
  attr_native_value (ReservaAnterior_refresh (ok anonymous) sensor_init).1.1
    = PStr (lit "Desconocido")
  /\ attr_native_value (ReservaProxima_refresh (ok anonymous) sensor_init).1.1
     = PStr (lit "Desconocido").
Proof.
  destruct (reserved_without_name_or_date anonymous sensor_init)
    as (_ & H1 & H2 & _).
  - reflexivity.
  - right. reflexivity.
  - left. reflexivity.
  - split; [exact H1|exact H2].
Defined.

End Fetchers.

(** ** More about the listener *)

Section Listener.
Import Py Sse Lines Traces StreamSamples.

(** Whatever holds of the loop state and survives the loop's four kinds of
    update survives reading a stream, a pass, and a whole run. *)
Section Preservation.
Variable P : loop_state -> Prop.
Hypothesis P_log : forall st r, P st -> P (emit (Log r) st).
Hypothesis P_sleep : forall st b d, P st -> P (emit (Sleep b d) st).
Hypothesis P_backoff : forall st b, P st -> P (set_backoff b st).
Hypothesis P_handover :
  forall st buffer, P st -> buffer <> [] -> P (after_handover buffer st).

Lemma on_raw_preserves (r : raw) (buffer : str) (st : loop_state) :
  P st -> P (on_raw r buffer st).1.
Proof using P_handover.
  intros HP. destruct (is_blank r) eqn:B.
  - destruct buffer as [|c b].
    + by rewrite on_raw_blank_empty.
    + rewrite on_raw_blank_full by done. by apply P_handover.
  - by rewrite on_raw_not_blank.
Qed.

Lemma read_content_preserves (c : list raw) (buffer : str) (st : loop_state) :
  P st -> P (read_content c buffer st).1.1.
Proof using P_handover.
  revert buffer st. induction c as [|r c IH]; intros buffer st HP; [done|].
  simpl. destruct (running st); simpl; [|done].
  pose proof (on_raw_preserves r buffer st HP) as HP'.
  destruct (on_raw r buffer st) as [st' b']. by apply IH.
Qed.

Lemma sleep_and_double_preserves (a : attempt) (st : loop_state) :
  P st -> P (sleep_and_double a st).1.
Proof using P_sleep P_backoff.
  intros HP. unfold sleep_and_double.
  destruct (sleep a); simpl; [apply P_backoff|]; by apply P_sleep.
Qed.

Lemma iteration_preserves (a : attempt) (st : loop_state) :
  P st -> P (iteration a st).1.
Proof using All.
  intros HP. unfold iteration, on_exception.
  destruct (conn a) as [| |status content fin].
  - by apply sleep_and_double_preserves, P_log, P_log.
  - by apply P_log.
  - destruct (negb (status =? 200)).
    + apply sleep_and_double_preserves.
      destruct (status =? 401); [apply P_log|]; by apply P_log, P_log.
    + set (st1 := set_backoff 5 _).
      assert (P st1) as H1 by by apply P_backoff, P_log, P_log.
      pose proof (read_content_preserves content [] st1 H1) as H2.
      destruct (read_content content [] st1) as [[st2 b2] broke]. simpl in H2.
      destruct broke; [done|]. destruct fin; [done| |done].
      by apply sleep_and_double_preserves, P_log.
Qed.

Lemma listen_sse_preserves (script : list attempt) (st : loop_state) :
  P st -> P (listen_sse script st).1.
Proof using All.
  revert st. induction script as [|a rest IH]; intros st HP; simpl.
  - by destruct (running st).
  - destruct (running st); simpl; [|done].
    pose proof (iteration_preserves a st HP) as HP'.
    destruct (iteration a st) as [st' [|]]; [by apply IH|done].
Qed.

End Preservation.

Lemma published_emit_other (e : effect) (st : loop_state) :
  (forall v, e <> WriteHaState v) ->
  published (effects (emit e st)) = published (effects st).
Proof.
  intros He. simpl. rewrite published_app. destruct e; simpl;
    rewrite ?app_nil_r; try done. by destruct (He value).
Qed.

(** X1. Over any run of the listener from its start, the native value of
    the sensor is the last event that was written out, and [None] as long
    as no event was: the entity never shows a value it did not publish,
    and reconnections, failures and sleeps never change it. *)
Theorem native_value_is_last_event (script : list attempt) :
  attr_native_value (listen_sse script initial).1
  = default None (last (published (effects (listen_sse script initial).1))).
Proof.
  apply (listen_sse_preserves
    (fun st => attr_native_value st
               = default None (last (published (effects st))))); try done.
  - intros st r H. by rewrite published_emit_other.
  - intros st b d H. by rewrite published_emit_other.
  - intros st buffer H Hb. rewrite published_handover, last_snoc. done.
Qed.

(** X2. Over any run of the listener from its start, every event written
    out is matched by one dispatcher notification and there is no
    notification without an event: the two counts are equal. *)
Theorem one_notification_per_event (script : list attempt) :
  dispatched (effects (listen_sse script initial).1)
  = length (published (effects (listen_sse script initial).1)).
Proof.
  apply (listen_sse_preserves
    (fun st => dispatched (effects st) = length (published (effects st))));
    try done.
  - intros st r H. simpl.
    by rewrite dispatched_app, published_app, length_app, H.
  - intros st b d H. simpl.
    by rewrite dispatched_app, published_app, length_app, H.
  - intros st buffer H Hb. simpl.
    by rewrite dispatched_app, published_app, length_app, H.
Qed.

Lemma iteration_running (a : attempt) (st : loop_state) :
  running (iteration a st).1 = running st.
Proof.
  by apply (iteration_preserves (fun st' => running st' = running st)).
Qed.

Lemma uncancelled_pass_completes (a : attempt) (st : loop_state) :
  running st = true -> uncancelled a = true ->
  (iteration a st).2 = Normal /\ running (iteration a st).1 = true.
Proof.
  intros Hr Hu. split; [|by rewrite iteration_running].
  revert Hu. unfold uncancelled, iteration, on_exception, sleep_and_double.
  destruct (conn a) as [| |status content fin]; [|done|].
  - by destruct (sleep a).
  - destruct (negb (status =? 200)).
    + by destruct (sleep a).
    + set (st1 := set_backoff 5 _).
      pose proof (read_content_no_break content [] st1 Hr) as Hb.
      destruct (read_content content [] st1) as [[st2 b2] broke].
      simpl in Hb. subst broke. by destruct fin, (sleep a).
Qed.

(** X3. The loop never stops by itself: nothing in it clears [_running].
    From a state where the listener runs, whatever the connections do, the
    flag is still set afterwards and the run never ends by leaving the
    [while] loop; it is either still reconnecting or was cancelled.  When
    no await is cancelled it is still reconnecting. *)
Theorem loop_ends_only_by_cancellation (script : list attempt)
    (st : loop_state) :
  running st = true ->
  running (listen_sse script st).1 = true
  /\ (listen_sse script st).2 <> Returned
  /\ (forallb uncancelled script = true ->
      (listen_sse script st).2 = Reconnecting).
Proof.
  revert st. induction script as [|a rest IH]; intros st Hr.
  - simpl. rewrite Hr. simpl. by split_and!.
  - cbn [listen_sse]. rewrite Hr. simpl negb. cbv iota.
    pose proof (iteration_running a st) as Hrun. rewrite Hr in Hrun.
    assert (uncancelled a = true -> (iteration a st).2 = Normal) as Hun.
    { unfold uncancelled, iteration, on_exception, sleep_and_double.
      destruct (conn a) as [| |status content fin]; [|done|].
      - by destruct (sleep a).
      - destruct (negb (status =? 200)).
        + by destruct (sleep a).
        + set (st1 := set_backoff 5 _).
          pose proof (read_content_no_break content [] st1 Hr) as Hb.
          destruct (read_content content [] st1) as [[st2 b2] broke].
          simpl in Hb. subst broke. by destruct fin, (sleep a). }
    destruct (iteration a st) as [st' [|]]; simpl in *.
    + destruct (IH st' Hrun) as (H1 & H2 & H3). split_and!; [done..|].
      intros [_ Hrest]%andb_prop. by apply H3.
    + split_and!; [done..|]. intros [Ha _]%andb_prop. by apply Hun in Ha.
Qed.

Lemma loop_ends_only_by_cancellation_witness :
  running (listen_sse [down; closed; cut []] initial).1 = true
  /\ (listen_sse [down; closed; cut []] initial).2 = Reconnecting.
Proof.
  destruct (loop_ends_only_by_cancellation [down; closed; cut []] initial
              eq_refl) as (H1 & _ & H3).
  split; [exact H1|]. apply H3. reflexivity.
Defined.

(** *** Sleeps and cancellation *)

Ltac count_sleeps :=
  unfold sleeps; simpl; rewrite ?List.filter_app, ?length_app; simpl; lia.

Lemma sleeps_app (t1 t2 : list effect) :
  sleeps (t1 ++ t2) = (sleeps t1 + sleeps t2)%nat.
Proof. unfold sleeps. by rewrite List.filter_app, length_app. Qed.

Lemma read_content_sleeps (c : list raw) (buffer : str) (st : loop_state) :
  sleeps (effects (read_content c buffer st).1.1) = sleeps (effects st).
Proof.
  apply (read_content_preserves
    (fun st' => sleeps (effects st') = sleeps (effects st))); [|done].
  intros st' b H Hb. simpl. rewrite sleeps_app, H.
  change (sleeps (handover b)) with 0%nat. lia.
Qed.

Lemma iteration_sleeps (a : attempt) (st : loop_state) :
  running st = true ->
  sleeps (effects (iteration a st).1)
  = (sleeps (effects st) + if fails a then 1 else 0)%nat.
Proof.
  intros Hr. unfold fails, iteration, on_exception, sleep_and_double.
  destruct (conn a) as [| |status content fin].
  - destruct (sleep a); count_sleeps.
  - count_sleeps.
  - destruct (negb (status =? 200)); simpl orb; cbv iota.
    + destruct (status =? 401), (sleep a); count_sleeps.
    + set (st1 := set_backoff 5 _).
      assert (sleeps (effects st1) = sleeps (effects st)) as H1
        by (unfold st1; count_sleeps).
      pose proof (read_content_no_break content [] st1 Hr) as Hb.
      pose proof (read_content_sleeps content [] st1) as Hs.
      destruct (read_content content [] st1) as [[st2 b2] broke].
      cbn [fst snd] in Hb, Hs. subst broke. rewrite H1 in Hs.
      destruct fin; [cbn [fst snd]; lia| |cbn [fst snd]; lia].
      destruct (sleep a); revert Hs; count_sleeps.
Qed.

(** X4. The loop sleeps exactly once per failed pass and never otherwise:
    over a run in which no await is cancelled, the number of backoff
    sleeps entered equals the number of passes that failed (request
    raised, status other than 200, or stream raised).  In particular a
    server that answers 200 and closes the stream each time is reconnected
    to at once, with no sleep in between. *)
Theorem one_sleep_per_failure (script : list attempt) (st : loop_state) :
  running st = true ->
  forallb uncancelled script = true ->
  sleeps (effects (listen_sse script st).1)
  = (sleeps (effects st) + length (List.filter fails script))%nat.
Proof.
  revert st. induction script as [|a rest IH]; intros st Hr Hu.
  - simpl. rewrite Hr. simpl. lia.
  - apply andb_prop in Hu as [Ha Hrest].
    destruct (uncancelled_pass_completes a st Hr Ha) as [Hn Hrun].
    cbn [listen_sse]. rewrite Hr. simpl negb. cbv iota.
    pose proof (iteration_sleeps a st Hr) as Hs.
    destruct (iteration a st) as [st' c]. simpl in *. subst c.
    rewrite IH, Hs by done. destruct (fails a); simpl; lia.
Qed.

Lemma one_sleep_per_failure_witness :
  sleeps (effects (listen_sse [closed; closed; closed] initial).1) = 0%nat
  /\ sleeps (effects (listen_sse [down; closed; lost; broken] initial).1)
     = 3%nat.
Proof.
  split.
  - apply (one_sleep_per_failure [closed; closed; closed] initial); reflexivity.
  - apply (one_sleep_per_failure [down; closed; lost; broken] initial);
      reflexivity.
Defined.

(** X5. A cancelled await ends the run at that pass: the listener raises
    [CancelledError] to its owner and never looks at what would come next
    (no further connection, no further sleep).  The cancelled pass leaves
    the backoff undoubled: it is 5 if the pass had got HTTP 200, and what
    it was before otherwise. *)
Theorem cancellation_ends_the_run (a : attempt) (rest : list attempt)
    (st : loop_state) :
  running st = true ->
  uncancelled a = false ->
  listen_sse (a :: rest) st = ((iteration a st).1, Cancelled)
  /\ backoff (iteration a st).1 = (if connected a then 5 else backoff st).
Proof.
  intros Hr Hu.
  assert ((iteration a st).2 = RaisedCancelled
          /\ backoff (iteration a st).1 = (if connected a then 5 else backoff st))
    as [Hc Hb].
  { revert Hu.
    unfold uncancelled, connected, iteration, on_exception, sleep_and_double.
    destruct (conn a) as [| |status content fin]; [|done|].
    - by destruct (sleep a).
    - destruct (status =? 200) eqn:E; simpl negb; cbv iota.
      + set (st1 := set_backoff 5 _).
        pose proof (read_content_no_break content [] st1 Hr) as Hbr.
        pose proof (read_content_backoff content [] st1) as Hbk.
        destruct (read_content content [] st1) as [[st2 b2] broke].
        cbn [fst snd] in Hbr, Hbk. subst broke.
        by destruct fin, (sleep a).
      + by destruct (status =? 401), (sleep a). }
  split; [|done]. cbn [listen_sse]. rewrite Hr. simpl negb. cbv iota.
  destruct (iteration a st) as [st' c]. simpl in Hc. by subst c.
Qed.

Lemma cancellation_ends_the_run_witness :
  listen_sse (Attempt (Response 503 [] EndOfStream) Float64.zero SleepCancelled
                :: [closed; down]) initial
  = (LoopState true 10 None
       [Log DebugConnecting; Log (DebugStatus 503);
        Sleep 10 (jitter_delay 10 Float64.zero)], Cancelled).
Proof.
  destruct (cancellation_ends_the_run
              (Attempt (Response 503 [] EndOfStream) Float64.zero SleepCancelled)
              [closed; down] initial eq_refl eq_refl) as [H _].
  exact H.
Defined.

(** *** Streams *)

Lemma listen_sse_same_pass (a a' : attempt) (before after : list attempt)
    (st : loop_state) :
  (forall st', running st' = true -> iteration a st' = iteration a' st') ->
  listen_sse (before ++ a :: after) st = listen_sse (before ++ a' :: after) st.
Proof.
  intros Ha. revert st. induction before as [|b before IH]; intros st.
  - cbn [app listen_sse]. destruct (running st) eqn:Hr; [|done].
    simpl negb. cbv iota. by rewrite Ha.
  - cbn [app listen_sse]. destruct (running st); [|done].
    simpl negb. cbv iota. destruct (iteration b st) as [st' [|]]; [apply IH|done].
Qed.

Lemma iteration_same_reading (c c' : list raw) (fin : ending) (t : Float64.float)
    (s : sleep_outcome) (st : loop_state) :
  (forall st', running st' = true ->
     (read_content c [] st').1.1 = (read_content c' [] st').1.1) ->
  running st = true ->
  iteration (Attempt (Response 200 c fin) t s) st
  = iteration (Attempt (Response 200 c' fin) t s) st.
Proof.
  intros Hc Hr. unfold iteration. simpl.
  set (st1 := set_backoff 5 _).
  assert (running st1 = true) as Hr1 by done.
  pose proof (Hc st1 Hr1) as H.
  pose proof (read_content_no_break c [] st1 Hr1) as Hb.
  pose proof (read_content_no_break c' [] st1 Hr1) as Hb'.
  destruct (read_content c [] st1) as [[st2 b2] broke].
  destruct (read_content c' [] st1) as [[st2' b2'] broke'].
  simpl in *. by subst.
Qed.

Lemma ignored_is_silent (r : raw) : is_ignored r = true -> is_silent r = true.
Proof.
  unfold is_ignored, is_silent, is_data, data_payload.
  intros [-> Hd]%andb_prop. destruct (line_of r) as [l|]; [|done].
  by destruct (startswith l (lit "data:")).
Qed.

Lemma read_content_silent (noise : list raw) (buffer : str) (st : loop_state) :
  running st = true -> forallb is_silent noise = true ->
  read_content noise buffer st = (st, buffer, false).
Proof.
  intros Hr Hn.
  assert (forallb (fun r => negb (is_blank r)) noise = true
          /\ concat (map data_payload noise) = []) as [Hb Hp].
  { induction noise as [|r rs IH]; [done|]. simpl in Hn.
    apply andb_prop in Hn as [[Hr1 Hr2]%andb_prop Hrs].
    destruct (IH Hrs) as [IH1 IH2]. simpl. rewrite Hr1, IH1, IH2.
    split; [done|]. by destruct (data_payload r). }
  rewrite read_content_no_blank by done. by rewrite Hp, app_nil_r.
Qed.

(** X6. Keep-alive comments, other fields ([event:], [id:], ...), items
    that do not decode and [data:] lines with only white space after the
    prefix are invisible: wherever such lines sit in the stream of a
    connection — before a block, inside it, after it — the whole run of
    the listener ends in the same state, with the same effects, as if they
    had not been sent.  (A line is silent when it is not blank and its
    payload is empty; [ignored_is_silent] shows that comments, other
    fields and undecodable items are.) *)
Theorem silent_lines_are_invisible (before after : list attempt)
    (c1 noise c2 : list raw) (fin : ending) (t : Float64.float) (s : sleep_outcome)
    (st : loop_state) :
  forallb is_silent noise = true ->
  listen_sse
    (before ++ Attempt (Response 200 (c1 ++ noise ++ c2) fin) t s :: after) st
  = listen_sse
      (before ++ Attempt (Response 200 (c1 ++ c2) fin) t s :: after) st.
Proof.
  intros Hs. apply listen_sse_same_pass. intros st1 Hr1.
  apply iteration_same_reading; [|done]. intros st2 Hr2.
  rewrite (read_content_app c1 (noise ++ c2)), (read_content_app c1 c2) by done.
  pose proof (read_content_running c1 [] st2) as Hrun. rewrite Hr2 in Hrun.
  destruct (read_content c1 [] st2) as [[st3 b3] broke]. cbn [fst snd] in *.
  rewrite (read_content_app noise c2) by done.
  by rewrite (read_content_silent noise) by done.
Qed.

Lemma silent_lines_are_invisible_witness :
  listen_sse
    ([down] ++ Attempt (Response 200
                 ([line "data: a"] ++
                  [line ": ping"; Undecodable; line "event: x"; line "data:  "] ++
                  [line "data: b"; line ""]) EndOfStream) Float64.zero Slept :: [closed])
    initial
  = listen_sse
      ([down] ++ Attempt (Response 200
                   ([line "data: a"] ++ [line "data: b"; line ""])
                   EndOfStream) Float64.zero Slept :: [closed])
      initial.
Proof.
  apply (silent_lines_are_invisible [down] [closed] [line "data: a"]
           [line ": ping"; Undecodable; line "event: x"; line "data:  "]
           [line "data: b"; line ""] EndOfStream Float64.zero Slept initial).
  reflexivity.
Defined.

Lemma read_closed_block (block : list raw) (st : loop_state) :
  running st = true -> is_block block = true ->
  read_content (closed_block block) [] st
  = (after_handover (payload block) st, [], false).
Proof.
  intros Hr [Hb Hp]%andb_prop.
  apply (read_block [] block [] (Decoded [LF]) st); try done.
  unfold payload in Hp. by destruct (concat (map data_payload block)).
Qed.

(** X7. A stream made of any number of blocks, each closed by its blank
    line, hands the events over one by one and in the order sent: the
    values written out are the blocks' joined payloads in sequence, there
    is one notification per block, the buffer is empty at the end and the
    native value is the payload of the last block. *)
Theorem events_in_order (blocks : list (list raw)) (st : loop_state) :
  running st = true ->
  forallb is_block blocks = true ->
  exists st',
    read_content (concat (map closed_block blocks)) [] st = (st', [], false)
    /\ published (effects st')
       = published (effects st) ++ map (fun b => Some (payload b)) blocks
    /\ dispatched (effects st')
       = (dispatched (effects st) + length blocks)%nat
    /\ attr_native_value st'
       = match last blocks with
         | Some b => Some (payload b)
         | None => attr_native_value st
         end.
Proof.
  revert st. induction blocks as [|b bs IH]; intros st Hr Hbs.
  - exists st. simpl. rewrite app_nil_r. split_and!; [done..|lia|done].
  - simpl in Hbs. apply andb_prop in Hbs as [Hb Hbs].
    destruct (IH (after_handover (payload b) st) Hr Hbs)
      as (st' & Hread & Hpub & Hdis & Hnat).
    exists st'. cbn [map concat]. rewrite read_content_app by done.
    rewrite read_closed_block by done. cbn [fst snd]. split_and!.
    + done.
    + rewrite Hpub, published_handover. cbn [map]. by rewrite <- app_assoc.
    + rewrite Hdis. simpl. rewrite dispatched_app.
      change (dispatched (handover (payload b))) with 1%nat. lia.
    + rewrite Hnat. destruct bs as [|b' bs]; [reflexivity|].
      change (last (b :: b' :: bs)) with (last (b' :: bs)).
      destruct (last (b' :: bs)) eqn:E; [done|]. by apply last_None in E.
Qed.

Lemma events_in_order_witness :
  exists st',
    read_content
      (concat (map closed_block
                 [[line "data: uno"]; [line "data: d"; line "data:os"]]))
      [] initial = (st', [], false)
    /\ published (effects st') = [Some (lit "uno"); Some (lit "dos")]
    /\ attr_native_value st' = Some (lit "dos").
Proof.
  destruct (events_in_order
              [[line "data: uno"]; [line "data: d"; line "data:os"]] initial
              eq_refl eq_refl) as (st' & H1 & H2 & _ & H4).
  exists st'. split_and!; [exact H1|exact H2|exact H4].
Defined.

Lemma rstrip_snoc_keep (chars s : str) (c : N) :
  existsb (N.eqb c) chars = false -> rstrip chars (s ++ [c]) = s ++ [c].
Proof.
  intros Hc. induction s as [|d s IH]; simpl.
  - by rewrite Hc.
  - rewrite IH. by destruct s.
Qed.

Lemma rstrip_snoc_drop (chars s : str) (c : N) :
  existsb (N.eqb c) chars = true -> rstrip chars (s ++ [c]) = rstrip chars s.
Proof.
  intros Hc. induction s as [|d s IH]; simpl.
  - by rewrite Hc.
  - by rewrite IH.
Qed.

Lemma crlf_line (text : str) : line_of (crlf text) = Some (text ++ [CR]).
Proof.
  unfold crlf, line_of. f_equal.
  change (text ++ [CR; LF]) with (text ++ [CR] ++ [LF]). rewrite app_assoc.
  rewrite rstrip_snoc_drop by done. by apply rstrip_snoc_keep.
Qed.

(** X8. Only line feeds are taken off a line, so a stream whose lines
    end in carriage return and line feed never shows a blank line to the
    loop: whatever such a stream carries, no event is ever handed over,
    and the whole run of the listener is the one it would have been had
    the connection delivered no line at all. *)
Theorem crlf_stream_never_emits (texts : list str) :
  forallb (fun r => negb (is_blank r)) (map crlf texts) = true
  /\ (forall buffer st,
        running st = true ->
        (read_content (map crlf texts) buffer st).1.1 = st)
  /\ (forall before after fin t s st,
        listen_sse
          (before ++ Attempt (Response 200 (map crlf texts) fin) t s :: after) st
        = listen_sse
            (before ++ Attempt (Response 200 [] fin) t s :: after) st).
Proof.
  assert (forallb (fun r => negb (is_blank r)) (map crlf texts) = true) as Hb.
  { induction texts as [|t ts IH]; [done|]. cbn [map forallb].
    rewrite IH, andb_true_r. unfold is_blank. rewrite crlf_line.
    by destruct t. }
  split_and!; [done| |].
  - intros buffer st Hr. by rewrite read_content_no_blank.
  - intros before after fin t s st. apply listen_sse_same_pass.
    intros st1 Hr1. apply iteration_same_reading; [|done].
    intros st2 Hr2. by rewrite read_content_no_blank.
Qed.

Lemma crlf_stream_never_emits_witness :
  published (effects (read_content
      (map crlf [lit "data: mesa 4"; []; lit "data: mesa 5"; []])
      [] initial).1.1) = [].
Proof.
  destruct (crlf_stream_never_emits
              [lit "data: mesa 4"; []; lit "data: mesa 5"; []]) as (_ & H & _).
  by rewrite (H [] initial eq_refl).
Defined.

End Listener.

(** ** More about the snapshot fetchers *)

Section Snapshot.
Import Py Fetch Snapshots Handlers SnapshotSamples.
Local Open Scope string_scope.
Local Open Scope Z_scope.

Lemma fetch_object (endpoint : str) (resp : response) (data : gmap str pyval) :
  object_of resp = Some data -> fetch endpoint resp = inr (PDict data).
Proof.
  destruct resp as [|status [|[]]]; try done. simpl.
  destruct (status =? 200); [|done]. by intros [= ->].
Qed.

Lemma fetch_no_object (endpoint : str) (resp : response) :
  object_of resp = None ->
  (exists log, fetch endpoint resp = inl log)
  \/ (exists v, fetch endpoint resp = inr v /\ not_an_object v = true).
Proof.
  destruct resp as [|status [|v]]; simpl.
  - intros _. left. by eexists.
  - intros _. left. destruct (negb (status =? 200)); by eexists.
  - destruct (status =? 200) eqn:E; simpl.
    + destruct v; try done; intros _; right; by eexists.
    + intros _. left. by eexists.
Qed.

(** A refresh that ignores what the fetcher held and keeps it when no
    object arrives makes the fetcher hold the last object's snapshot. *)
Lemma handle_all_last {S : Type}
    (refresh : response -> S -> S * list effect * completion)
    (snapshot : gmap str pyval -> S) :
  (forall resp st, object_of resp = None -> (refresh resp st).1.1 = st) ->
  (forall resp data st,
     object_of resp = Some data -> (refresh resp st).1.1 = snapshot data) ->
  forall history st,
    handle_all refresh history st
    = match last (omap object_of history) with
      | Some data => snapshot data
      | None => st
      end.
Proof.
  intros Hnone Hsome history st. unfold handle_all.
  induction history as [|resp history IH] using rev_ind; [done|].
  rewrite fold_left_app, omap_app. simpl.
  destruct (object_of resp) as [data|] eqn:E.
  - rewrite last_snoc. by apply Hsome.
  - rewrite app_nil_r, Hnone by done. exact IH.
Qed.

(** X9. Each fetcher always holds the snapshot of the last response that
    delivered a JSON object: over any history of notifications, failed
    requests, non-200 answers, unparsable bodies and bodies that are not
    objects leave no trace, and what is held depends on that one payload
    alone — nothing of an older snapshot, and nothing of the state before
    it, survives a good response.  With no good response the state is
    still the one the history started from. *)
Theorem state_is_last_good_snapshot (history : list response)
    (b b0 : binary_state) (s s0 : sensor_state) :
  handle_all Ocupado_refresh history b
  = match last (omap object_of history) with
    | Some data => (Ocupado_refresh (ok data) b0).1.1
    | None => b
    end
  /\ handle_all ReservaHoy_refresh history s
     = match last (omap object_of history) with
       | Some data => (ReservaHoy_refresh (ok data) s0).1.1
       | None => s
       end
  /\ (forall endpoint,
        handle_all (ReservaBase_refresh endpoint) history s
        = match last (omap object_of history) with
          | Some data => (ReservaBase_refresh endpoint (ok data) s0).1.1
          | None => s
          end).
Proof.
  split_and!; [| |intros endpoint];
    apply (handle_all_last _ (fun data => (_ (ok data) _).1.1)).
  - intros resp st E. unfold Ocupado_refresh.
    destruct (fetch_no_object (lit "/api/today") resp E)
      as [[log ->]|(v & -> & Hv)]; [done|]. by destruct v.
  - intros resp data st E. unfold Ocupado_refresh.
    by rewrite (fetch_object _ resp data E), fetch_ok.
  - intros resp st E. unfold ReservaHoy_refresh.
    destruct (fetch_no_object (lit "/api/today") resp E)
      as [[log ->]|(v & -> & Hv)]; [done|]. by destruct v.
  - intros resp data st E. unfold ReservaHoy_refresh.
    by rewrite (fetch_object _ resp data E), fetch_ok.
  - intros resp st E. unfold ReservaBase_refresh.
    destruct (fetch_no_object (lit endpoint) resp E)
      as [[log ->]|(v & -> & Hv)]; [done|]. by destruct v.
  - intros resp data st E. unfold ReservaBase_refresh.
    by rewrite (fetch_object _ resp data E), fetch_ok.
Qed.

(** X10. A 200 answer whose body parses to something that is not a JSON
    object ([null], a list, a string, a number, a boolean) is not caught
    by the [try] block: each of the four fetchers raises [AttributeError]
    out of the refresh, with its state as it was, nothing logged and the
    state not written out. *)
Theorem non_object_body_raises (v : pyval) (b : binary_state)
    (s : sensor_state) :
  not_an_object v = true ->
  Ocupado_refresh (Status 200 (Json v)) b = (b, [], RaisesAttributeError)
  /\ ReservaHoy_refresh (Status 200 (Json v)) s = (s, [], RaisesAttributeError)
  /\ ReservaAnterior_refresh (Status 200 (Json v)) s
     = (s, [], RaisesAttributeError)
  /\ ReservaProxima_refresh (Status 200 (Json v)) s
     = (s, [], RaisesAttributeError).
Proof. by destruct v. Qed.

Lemma non_object_body_raises_witness :
  Ocupado_refresh (Status 200 (Json (PList []))) occupied
    = (occupied, [], RaisesAttributeError)
  /\ ReservaProxima_refresh (Status 200 (Json PNone)) shown
     = (shown, [], RaisesAttributeError).
Proof.
  split.
  - apply (non_object_body_raises (PList []) occupied shown eq_refl).
  - apply (non_object_body_raises PNone occupied shown eq_refl).
Defined.

Lemma truthy_get_or (data : gmap str pyval) (key : string) :
  truthy (get_or data key (PBool false)) = truthy (get data key).
Proof. unfold get_or, get. by destruct (data !! lit key). Qed.

(** X11. After a refresh that got a JSON object, Reserva Hoy, Reserva
    Anterior and Reserva Próxima never show an empty state: whatever the
    payload holds (nulls, empty strings, missing fields, fields of other
    types), the native value written out is truthy — a name or date taken
    from the payload, or one of the markers. *)
Theorem shown_value_never_empty (data : gmap str pyval) (s : sensor_state) :
  truthy (attr_native_value (ReservaHoy_refresh (ok data) s).1.1) = true
  /\ (forall endpoint,
        truthy (attr_native_value
                  (ReservaBase_refresh endpoint (ok data) s).1.1) = true).
Proof.
  split; [|intros endpoint];
    unfold ReservaHoy_refresh, ReservaBase_refresh; rewrite fetch_ok; simpl;
    destruct (truthy (get data "has_reservation")); try done; unfold py_or.
  - by destruct (truthy (get data "user_name")) eqn:E.
  - destruct (truthy (get data "user_name")) eqn:E1; rewrite ?E1; [done|].
    by destruct (truthy (get data "date")) eqn:E2.
Qed.

(** X12. The attributes a fetcher writes out have a fixed shape, whatever
    the payload: Ocupado has exactly [reserva_hoy], [nombre],
    [cumpleanos], [festivo] and [foto_perfil_url]; Reserva Hoy exactly
    [cumpleanos], [festivo] and [foto_perfil_url]; Reserva Anterior and
    Próxima exactly [nombre], [cumpleanos], [festivo], [foto_perfil_url]
    and [fecha].  [cumpleanos] and [festivo] are always booleans, the
    truth values of [is_birthday] and [is_holiday] (false when missing or
    null); [foto_perfil_url] is the raw [profile_pic_url]. *)
Theorem attributes_have_fixed_shape (data : gmap str pyval)
    (b : binary_state) (s : sensor_state) (endpoint : string) :
  let flags (a : gmap str pyval) :=
    a !! lit "cumpleanos" = Some (PBool (truthy (get data "is_birthday")))
    /\ a !! lit "festivo" = Some (PBool (truthy (get data "is_holiday")))
    /\ a !! lit "foto_perfil_url" = Some (get data "profile_pic_url") in
  (dom (battrs (Ocupado_refresh (ok data) b).1.1)
     = {[lit "reserva_hoy"; lit "nombre"; lit "cumpleanos"; lit "festivo";
         lit "foto_perfil_url"]}
   /\ flags (battrs (Ocupado_refresh (ok data) b).1.1))
  /\ (dom (attrs (ReservaHoy_refresh (ok data) s).1.1)
        = {[lit "cumpleanos"; lit "festivo"; lit "foto_perfil_url"]}
      /\ flags (attrs (ReservaHoy_refresh (ok data) s).1.1))
  /\ (dom (attrs (ReservaBase_refresh endpoint (ok data) s).1.1)
        = {[lit "nombre"; lit "cumpleanos"; lit "festivo";
            lit "foto_perfil_url"; lit "fecha"]}
      /\ flags (attrs (ReservaBase_refresh endpoint (ok data) s).1.1)).
Proof.
  intros flags. unfold flags.
  unfold Ocupado_refresh, ReservaHoy_refresh, ReservaBase_refresh.
  rewrite !fetch_ok. cbn [fst snd battrs attrs]. unfold py_bool.
  rewrite !truthy_get_or.
  split_and!; try by vm_compute.
  all: unfold dict; cbn [map fst snd list_to_map foldr];
    rewrite !dom_insert_L, dom_empty_L; set_solver.
Qed.

(** X13. For Reserva Anterior and Reserva Próxima with a reservation, the
    name comes first and the date stands in for it: a truthy [user_name]
    is the state whatever the date; when the name is missing, null or
    empty and the date is truthy, the state is the date.  In both cases
    the attributes [nombre] and [fecha] still carry the raw fields. *)
Theorem date_stands_in_for_name (endpoint : string) (data : gmap str pyval)
    (s : sensor_state) :
  truthy (get data "has_reservation") = true ->
  let s' := (ReservaBase_refresh endpoint (ok data) s).1.1 in
  (truthy (get data "user_name") = true ->
     attr_native_value s' = get data "user_name")
  /\ (truthy (get data "user_name") = false ->
      truthy (get data "date") = true ->
      attr_native_value s' = get data "date")
  /\ attrs s' !! lit "nombre" = Some (get data "user_name")
  /\ attrs s' !! lit "fecha" = Some (get data "date").
Proof.
  intros Hres s'. unfold s', ReservaBase_refresh. rewrite fetch_ok.
  cbn [fst snd attr_native_value attrs]. rewrite Hres. unfold py_or.
  split_and!.
  - intros H. rewrite H. cbv iota. by rewrite H.
  - intros H1 H2. rewrite H1. cbv iota. by rewrite H2.
  - by vm_compute.
  - by vm_compute.
Qed.

Lemma date_stands_in_for_name_witness :
  attr_native_value
    (ReservaAnterior_refresh
       (ok (dict [("has_reservation", PBool true); ("user_name", PStr []);
                  ("date", PStr (lit "2024-05-01"))])) sensor_init).1.1
  = PStr (lit "2024-05-01").
Proof.
  destruct (date_stands_in_for_name "/api/prev"
              (dict [("has_reservation", PBool true); ("user_name", PStr []);
                     ("date", PStr (lit "2024-05-01"))]) sensor_init eq_refl)
    as (_ & H & _).
  apply H; reflexivity.
Defined.

(** X14. The two entities fed by [/api/today] agree on the same payload:
    Ocupado is on exactly when [has_reservation] is truthy, and its
    [reserva_hoy] attribute says the same; when it is off Reserva Hoy
    shows ["Libre"]; when it is on Reserva Hoy shows the payload's name if
    that is truthy and ["Desconocido"] otherwise. *)
Theorem today_entities_agree (data : gmap str pyval) (b : binary_state)
    (s : sensor_state) :
  let b' := (Ocupado_refresh (ok data) b).1.1 in
  let s' := (ReservaHoy_refresh (ok data) s).1.1 in
  is_on b' = truthy (get data "has_reservation")
  /\ battrs b' !! lit "reserva_hoy" = Some (PBool (is_on b'))
  /\ (is_on b' = false -> attr_native_value s' = PStr (lit "Libre"))
  /\ (is_on b' = true ->
      attr_native_value s'
      = if truthy (get data "user_name") then get data "user_name"
        else PStr (lit "Desconocido")).
Proof.
  intros b' s'. unfold b', s', Ocupado_refresh, ReservaHoy_refresh.
  rewrite !fetch_ok. cbn [fst snd is_on battrs attr_native_value].
  rewrite truthy_get_or. split_and!.
  - done.
  - by vm_compute.
  - by intros ->.
  - by intros ->.
Qed.

Lemma today_entities_agree_witness :
  is_on (Ocupado_refresh (ok free_named) Ocupado_init).1.1 = false
  /\ attr_native_value (ReservaHoy_refresh (ok free_named) sensor_init).1.1
     = PStr (lit "Libre").
Proof.
  destruct (today_entities_agree free_named Ocupado_init sensor_init)
    as (H1 & _ & H3 & _).
  split; [|apply H3]; reflexivity.
Defined.

End Snapshot.

(** ** The login behind the config flow *)

Section Login.
Import Py Fetch ConfigFlow LoginSamples.

Lemma startswith_app (p s : str) : startswith (p ++ s) p = true.
Proof.
  induction p as [|c p IH]; [by destruct s|]. simpl. by rewrite N.eqb_refl, IH.
Qed.

Lemma span_not_spec (c : N) (s : str) :
  s = (span_not c s).1 ++ (span_not c s).2
  /\ free_of c (span_not c s).1 = true
  /\ match (span_not c s).2 with [] => True | d :: _ => d = c end.
Proof.
  induction s as [|d s (IH1 & IH2 & IH3)]; [done|]. simpl.
  destruct (N.eqb_spec d c) as [->|Hne]; [done|].
  destruct (span_not c s) as [tok rest]. simpl in *.
  split_and!; [by f_equal| |done].
  rewrite IH2, andb_true_r. by apply negb_true_iff, N.eqb_neq.
Qed.

Lemma span_not_free (c : N) (tok rest : str) :
  free_of c tok = true -> span_not c (tok ++ c :: rest) = (tok, c :: rest).
Proof.
  induction tok as [|d tok IH]; simpl.
  - by rewrite N.eqb_refl.
  - intros [Hd Htok]%andb_prop. apply negb_true_iff in Hd. rewrite Hd.
    by rewrite IH.
Qed.

Lemma match_value_sound (s tok : str) :
  match_value s = Some tok ->
  exists post, s = VALUE ++ tok ++ QUOTE :: post
               /\ tok <> [] /\ free_of QUOTE tok = true.
Proof.
  unfold match_value. destruct (startswith s VALUE) eqn:Hs; [|done].
  apply startswith_split in Hs. change (length VALUE) with 7%nat in Hs.
  destruct (span_not_spec QUOTE (slice_from 7 s)) as (H1 & H2 & H3).
  destruct (span_not QUOTE (slice_from 7 s)) as [[|c t] [|d rest]];
    try done. simpl in *. intros [= <-]. subst d.
  exists rest. split_and!; [|done..]. rewrite Hs at 1. by rewrite H1.
Qed.

Lemma match_value_complete (tok post : str) :
  tok <> [] -> free_of QUOTE tok = true ->
  match_value (VALUE ++ tok ++ QUOTE :: post) = Some tok.
Proof.
  intros Hne Hfree. unfold match_value. rewrite startswith_app.
  change (slice_from 7 (VALUE ++ tok ++ QUOTE :: post))
    with (tok ++ QUOTE :: post).
  rewrite span_not_free by done. by destruct tok.
Qed.

Lemma match_tail_sound (s tok : str) :
  match_tail s = Some tok ->
  exists mid post, s = mid ++ VALUE ++ tok ++ QUOTE :: post
                   /\ free_of GT mid = true
                   /\ tok <> [] /\ free_of QUOTE tok = true.
Proof.
  induction s as [|c s IH]; simpl.
  - intros (post & H & ?)%match_value_sound. by exists [], post.
  - destruct (negb (c =? GT)%N) eqn:Hc.
    + destruct (match_tail s) as [t|].
      * intros [= ->]. destruct (IH eq_refl) as (mid & post & -> & Hm & Ht).
        exists (c :: mid), post. simpl. by rewrite Hc, Hm.
      * intros (post & H & ?)%match_value_sound. by exists [], post.
    + intros (post & H & ?)%match_value_sound. by exists [], post.
Qed.

(** X15. What the pattern search takes from the login page is a real
    field value: when a token is found, the page holds [name=Qcsrf_tokenQ]
    (Q the double quote), then characters none of which is [>], then
    [value=Q], the token, and a closing quote; the token is not empty and
    holds no quote. *)
Theorem csrf_token_is_a_field_value (text tok : str) :
  search_csrf text = Some tok ->
  tok <> [] /\ free_of QUOTE tok = true
  /\ exists pre mid post,
       text = pre ++ NAME ++ mid ++ VALUE ++ tok ++ QUOTE :: post
       /\ free_of GT mid = true.
Proof.
  induction text as [|c text IH].
  - simpl. done.
  - cbn [search_csrf].
    destruct (startswith (c :: text) NAME) eqn:Hs.
    + destruct (match_tail (slice_from 17 (c :: text))) as [t|] eqn:Ht.
      * intros [= ->]. apply startswith_split in Hs.
        change (length NAME) with 17%nat in Hs.
        destruct (match_tail_sound _ _ Ht) as (mid & post & Hm & Hgt & Hne & Hq).
        split_and!; [done..|]. exists [], mid, post. split; [|done].
        simpl. rewrite Hs at 1. by rewrite Hm.
      * intros H. destruct (IH H) as (Hne & Hq & pre & mid & post & -> & Hgt).
        split_and!; [done..|]. by exists (c :: pre), mid, post.
    + intros H. destruct (IH H) as (Hne & Hq & pre & mid & post & -> & Hgt).
      split_and!; [done..|]. by exists (c :: pre), mid, post.
Qed.

Lemma csrf_token_is_a_field_value_witness :
  lit "Ij.k-9_" <> [] /\ free_of QUOTE (lit "Ij.k-9_") = true
  /\ exists pre mid post,
       page = pre ++ NAME ++ mid ++ VALUE ++ lit "Ij.k-9_" ++ QUOTE :: post
       /\ free_of GT mid = true.
Proof. apply (csrf_token_is_a_field_value page (lit "Ij.k-9_")). reflexivity. Defined.

Lemma search_skip (pre rest : str) :
  find NAME (pre ++ rest) = Some (length pre) ->
  search_csrf (pre ++ rest) = search_csrf rest.
Proof.
  induction pre as [|c pre IH]; [done|]. cbn [app find search_csrf length].
  destruct (startswith (c :: pre ++ rest) NAME); [done|].
  destruct (find NAME (pre ++ rest)) as [n|] eqn:E; [|done].
  intros [= ->]. by apply IH.
Qed.

Lemma match_tail_prepend (mid s tok : str) :
  free_of GT mid = true -> match_tail s = Some tok ->
  match_tail (mid ++ s) = Some tok.
Proof.
  intros Hm Hs. induction mid as [|c mid IH]; [done|].
  simpl in Hm. apply andb_prop in Hm as [Hc Hm]. cbn [app match_tail].
  by rewrite Hc, IH.
Qed.

Lemma startswith_cut (a b p : str) (c : N) :
  free_of c p = true -> startswith (a ++ c :: b) p = true ->
  startswith a p = true.
Proof.
  revert a. induction p as [|d p IH]; intros a Hp; [by destruct a|].
  simpl in Hp. apply andb_prop in Hp as [Hd Hp].
  destruct a as [|e a]; simpl.
  - intros [H _]%andb_prop. apply N.eqb_eq in H. subst d.
    by rewrite N.eqb_refl in Hd.
  - intros [He Ha]%andb_prop. rewrite He. by apply IH.
Qed.

Lemma match_tail_none (r post : str) :
  free_of GT r = true -> occurs VALUE r = false ->
  match_tail (r ++ GT :: post) = None.
Proof.
  induction r as [|c r IH]; [done|].
  cbn [free_of forallb occurs app match_tail].
  intros [Hc Hr]%andb_prop [Hs Ho]%orb_false_elim.
  rewrite Hc, (IH Hr Ho). unfold match_value.
  destruct (startswith (c :: r ++ GT :: post) VALUE) eqn:E; [|done].
  apply (startswith_cut (c :: r) post VALUE GT) in E; [congruence|done].
Qed.

Lemma match_tail_cons_none (c : N) (s : str) :
  (c =? GT)%N = false -> match_tail s = None ->
  match_tail (c :: s) = match_value (c :: s).
Proof. intros Hc Hs. cbn [match_tail]. by rewrite Hc, Hs. Qed.

Lemma search_at_name (rest tok : str) :
  match_tail rest = Some tok -> search_csrf (NAME ++ rest) = Some tok.
Proof.
  intros H.
  assert (search_csrf (NAME ++ rest)
          = match (if startswith (NAME ++ rest) NAME
                   then match_tail (slice_from 17 (NAME ++ rest))
                   else None) with
            | Some t => Some t
            | None => search_csrf (slice_from 1 (NAME ++ rest))
            end) as -> by reflexivity.
  rewrite startswith_app. change (slice_from 17 (NAME ++ rest)) with rest.
  by rewrite H.
Qed.

(** X16. The token of the login form is found: on a page where the first
    [name=Qcsrf_tokenQ] (Q the double quote) is followed, with no [>] in
    between, by [value=Q], a non-empty token without quote or [>], the
    closing quote and then the rest of the tag up to its [>], the search
    returns that token, provided no second [value=Q] shows up between the
    start of the token and the end of the tag. *)
Theorem csrf_token_of_hidden_field (pre mid tok tail post : str) :
  let text :=
    pre ++ NAME ++ mid ++ VALUE ++ tok ++ [QUOTE] ++ tail ++ GT :: post in
  find NAME text = Some (length pre) ->
  free_of GT mid = true ->
  tok <> [] ->
  free_of QUOTE tok = true ->
  free_of GT tok = true ->
  free_of GT tail = true ->
  occurs VALUE (tok ++ [QUOTE] ++ tail) = false ->
  search_csrf text = Some tok.
Proof.
  intros text Hfind Hmid Hne Hq Hgt Htail Hocc. unfold text.
  rewrite search_skip by done. apply search_at_name.
  apply match_tail_prepend; [done|].
  pose (rest := [97; 108; 117; 101; 61; 34]%N).
  assert (match_tail (rest ++ tok ++ [QUOTE] ++ tail ++ GT :: post) = None)
    as Hnone.
  { replace (rest ++ tok ++ [QUOTE] ++ tail ++ GT :: post)
      with ((rest ++ tok ++ [QUOTE] ++ tail) ++ GT :: post)
      by (by rewrite <- !app_assoc).
    apply match_tail_none.
    - unfold free_of in *. rewrite !forallb_app. by rewrite Hgt, Htail.
    - exact Hocc. }
  change (VALUE ++ tok ++ [QUOTE] ++ tail ++ GT :: post)
    with (118%N :: rest ++ tok ++ [QUOTE] ++ tail ++ GT :: post).
  rewrite match_tail_cons_none by done.
  by apply (match_value_complete tok (tail ++ GT :: post)).
Qed.

Lemma csrf_token_of_hidden_field_witness :
  search_csrf page = Some (lit "Ij.k-9_").
Proof.
  apply (csrf_token_of_hidden_field
           (lit "<form><input id=" ++ [QUOTE] ++ lit "csrf_token" ++ [QUOTE]
              ++ lit " ")
           (lit " type=" ++ [QUOTE] ++ lit "hidden" ++ [QUOTE] ++ lit " ")
           (lit "Ij.k-9_") [] (lit "</form>"));
    [reflexivity..|discriminate|reflexivity|reflexivity|reflexivity|reflexivity].
Defined.

Lemma search_needs_name (text : str) :
  occurs NAME text = false -> search_csrf text = None.
Proof.
  induction text as [|c text IH]; [done|]. cbn [occurs search_csrf].
  intros [-> Ho]%orb_false_elim. by apply IH.
Qed.

(** X17. The password leaves only with a CSRF token, and only for the
    login URL: every form the login posts goes to [host/login] and carries
    a token found on the page just fetched, with the user name and the
    password as given.  On a page without any [name=Qcsrf_tokenQ] the
    login sends nothing after the GET and raises ["CSRF token not
    found"]. *)
Theorem password_only_with_csrf (srv : server) (host username password : str) :
  (forall url payload,
     In (PostForm url payload)
        (login_and_get_token srv host username password).1 ->
     url = host ++ lit "/login"
     /\ exists text csrf,
          login_page srv = Gives text /\ search_csrf text = Some csrf
          /\ payload = login_form csrf username password)
  /\ (forall text,
        login_page srv = Gives text -> occurs NAME text = false ->
        login_and_get_token srv host username password
        = ([Get (host ++ lit "/login")],
           Raises (RuntimeError "CSRF token not found"))).
Proof.
  split.
  - intros url payload. unfold login_and_get_token.
    destruct (login_page srv) as [e|text]; [by intros [|[]]|].
    destruct (search_csrf text) as [csrf|] eqn:E; [|by intros [|[]]].
    assert (PostForm (host ++ lit "/login") (login_form csrf username password)
            = PostForm url payload ->
            url = host ++ lit "/login"
            /\ exists text0 csrf0,
                 Gives text = Gives text0 /\ search_csrf text0 = Some csrf0
                 /\ payload = login_form csrf0 username password) as Hin.
    { intros [= <- <-]. split; [done|]. by exists text, csrf. }
    destruct (login_post srv) as [e|status];
      [by intros [H|[H|[]]]; [|apply Hin]|].
    destruct (negb ((status =? 200) || (status =? 302)));
      [by intros [H|[H|[]]]; [|apply Hin]|].
    destruct (token_post srv) as [e|[status' body]];
      [|destruct (negb (status' =? 200)); [|destruct body]];
      cbn [app fst]; by intros [H|[H|[H|[]]]]; [|apply Hin|].
  - intros text Hpage Ho. unfold login_and_get_token.
    by rewrite Hpage, search_needs_name.
Qed.

Lemma password_only_with_csrf_witness :
  login_and_get_token formless (lit "http://lola") (lit "ana") (lit "secreto")
  = ([Get (lit "http://lola" ++ lit "/login")],
     Raises (RuntimeError "CSRF token not found")).
Proof.
  destruct (password_only_with_csrf formless (lit "http://lola") (lit "ana")
              (lit "secreto")) as [_ H].
  apply (H (lit "<html>down for maintenance</html>")); reflexivity.
Defined.

(** X18. The login returns a token exactly when the whole handshake went
    through: the page gave a CSRF token, the credentials POST answered 200
    or 302, the token POST answered 200 with a JSON object, and that
    object has [access_token], which is what is returned.  The requests
    sent are then the GET of the login page, the form posted to the same
    URL and the POST to [host/oauth/token], in this order. *)
Theorem token_needs_whole_handshake (srv : server)
    (host username password : str) (token : pyval) :
  (login_and_get_token srv host username password).2 = Gives token
  <-> exists text csrf status data,
        login_page srv = Gives text
        /\ search_csrf text = Some csrf
        /\ login_post srv = Gives status
        /\ (status = 200 \/ status = 302)
        /\ token_post srv = Gives (200, Gives (PDict data))
        /\ data !! lit "access_token" = Some token
        /\ (login_and_get_token srv host username password).1
           = [Get (host ++ lit "/login");
              PostForm (host ++ lit "/login")
                (login_form csrf username password);
              Post (host ++ lit "/oauth/token")].
Proof.
  unfold login_and_get_token. split.
  - destruct (login_page srv) as [e|text]; [done|].
    destruct (search_csrf text) as [csrf|] eqn:Ec; [|done].
    destruct (login_post srv) as [e|status]; [done|].
    destruct ((status =? 200) || (status =? 302)) eqn:Es; [|done]. simpl.
    destruct (token_post srv) as [e|[status' [e|data]]]; [done| |].
    + by destruct (negb (status' =? 200)).
    + destruct (status' =? 200) eqn:Et; [|done]. simpl.
      apply Z.eqb_eq in Et as ->.
      destruct data as [| | | | | |d]; try done. simpl.
      destruct (d !! lit "access_token") as [v|] eqn:Ed; [|done].
      intros [= ->]. exists text, csrf, status, d.
      split_and!; try done.
      apply orb_prop in Es as [E|E]; apply Z.eqb_eq in E; auto.
  - intros (text & csrf & status & data & -> & -> & -> & Hs & -> & Hd & _).
    assert ((status =? 200) || (status =? 302) = true) as ->
      by (destruct Hs as [-> | ->]; done).
    simpl. by rewrite Hd.
Qed.

Lemma token_needs_whole_handshake_witness :
  (login_and_get_token friendly (lit "http://lola") (lit "ana")
     (lit "secreto")).2 = Gives (PStr (lit "T0K")).
Proof.
  apply (token_needs_whole_handshake friendly (lit "http://lola") (lit "ana")
           (lit "secreto") (PStr (lit "T0K"))).
  exists page, (lit "Ij.k-9_"), 302,
    (dict [("access_token"%string, PStr (lit "T0K"))]).
  split_and!; try reflexivity. by right.
Defined.

(** X19. The user step of the config flow, whatever the form keys are
    called, outcome by outcome.  Without input it shows the empty form and
    contacts nobody.  With input that lacks a field it sends no request
    and shows the form with the error [base: auth].  With all three
    fields it sends exactly the requests of the login, and then: a token
    creates the entry titled El Rincón de Lola that holds exactly the host
    as typed and that token; a cancellation is raised on; anything else
    the login raises — a failed request, a page without token, a refused
    login, a body without token — ends in the form with the error
    [base: auth]. *)
Theorem user_step_outcomes (HOST USER PASS : str) (srv : server)
    (input : gmap str str) :
  async_step_user HOST USER PASS srv None
    = ([], Gives (ShowForm "user" [HOST; USER; PASS] ∅))
  /\ (input !! HOST = None \/ input !! USER = None \/ input !! PASS = None ->
      async_step_user HOST USER PASS srv (Some input)
      = ([], Gives (ShowForm "user" [HOST; USER; PASS]
                      {[lit "base" := lit "auth"]})))
  /\ (forall host username password,
        input !! HOST = Some host ->
        input !! USER = Some username ->
        input !! PASS = Some password ->
        async_step_user HOST USER PASS srv (Some input)
        = ((login_and_get_token srv host username password).1,
           match (login_and_get_token srv host username password).2 with
           | Gives token =>
               Gives (CreateEntry (lit "El Rinc" ++ [243%N] ++ lit "n de Lola")
                        (list_to_map [(lit "host", PStr host);
                                      (lit "token", token)]))
           | Raises CancelledError => Raises CancelledError
           | Raises _ =>
               Gives (ShowForm "user" [HOST; USER; PASS]
                        {[lit "base" := lit "auth"]})
           end)).
Proof.
  split_and!; [done| |].
  - unfold async_step_user.
    destruct (input !! HOST); [|done]. destruct (input !! USER); [|done].
    destruct (input !! PASS); [|done]. by intros [|[|]].
  - intros host username password Hh Hu Hp.
    unfold async_step_user. rewrite Hh, Hu, Hp.
    destruct (login_and_get_token srv host username password)
      as [sent [e|token]]; [by destruct e|done].
Qed.

(** A server without login form ends in the error form after the one
    GET; a friendly one gives the entry after the three requests; a
    missing password sends nothing. *)
Lemma user_step_outcomes_witness :
  async_step_user (lit "host") (lit "username") (lit "password") formless
    (Some credentials)
  = ([Get (lit "http://lola/login")],
     Gives (ShowForm "user" [lit "host"; lit "username"; lit "password"]
              {[lit "base" := lit "auth"]}))
  /\ async_step_user (lit "host") (lit "username") (lit "password") friendly
       (Some credentials)
     = ([Get (lit "http://lola/login");
         PostForm (lit "http://lola/login")
           (list_to_map [(lit "csrf_token", lit "Ij.k-9_");
                         (lit "email_or_username", lit "ana");
                         (lit "password", lit "secreto");
                         (lit "remember", lit "y")]);
         Post (lit "http://lola/oauth/token")],
        Gives (CreateEntry (lit "El Rinc" ++ [243%N] ++ lit "n de Lola")
                 (list_to_map [(lit "host", PStr (lit "http://lola"));
                               (lit "token", PStr (lit "T0K"))])))
  /\ async_step_user (lit "host") (lit "username") (lit "password") friendly
       (Some (delete (lit "password") credentials))
     = ([], Gives (ShowForm "user" [lit "host"; lit "username"; lit "password"]
                     {[lit "base" := lit "auth"]})).
Proof.
  split_and!.
  - destruct (user_step_outcomes (lit "host") (lit "username") (lit "password")
                formless credentials) as (_ & _ & H).
    rewrite (H (lit "http://lola") (lit "ana") (lit "secreto"));
      reflexivity.
  - destruct (user_step_outcomes (lit "host") (lit "username") (lit "password")
                friendly credentials) as (_ & _ & H).
    rewrite (H (lit "http://lola") (lit "ana") (lit "secreto"));
      reflexivity.
  - destruct (user_step_outcomes (lit "host") (lit "username") (lit "password")
                friendly (delete (lit "password") credentials)) as (_ & H & _).
    apply H. right. right. reflexivity.
Defined.

End Login.

(** ** Entry setup and unload *)

Section EntrySetup.
Import Py Fetch Setup.
Local Open Scope string_scope.

(** X20. Setting an entry up and unloading it again is a round trip on
    the integration's data: when the entry was not stored before, a setup
    followed by a successful unload leaves the stored entries exactly as
    they were (the [DOMAIN] dict now exists, possibly empty), and the
    unload answers [True].  Throughout, what is stored for any other entry
    is never touched. *)
Theorem setup_then_unload (entry : config_entry) (hd : domain_data) :
  let up := (async_setup_entry entry hd).1 in
  let down := async_unload_entry true entry up in
  (default ∅ hd !! entry_id entry = None ->
   down = (Some (default ∅ hd), Done true))
  /\ (forall other,
        other <> entry_id entry ->
        default ∅ up !! other = default ∅ hd !! other
        /\ default ∅ down.1 !! other = default ∅ hd !! other).
Proof.
  intros up down. unfold down, up, async_unload_entry, async_setup_entry.
  cbn [fst]. rewrite lookup_insert_eq. split.
  - intros Hfree. by rewrite delete_insert_eq, delete_id.
  - intros other Hne. cbn [fst default from_option id]. split.
    + by rewrite lookup_insert_ne.
    + by rewrite lookup_delete_ne, lookup_insert_ne.
Qed.

Lemma setup_then_unload_witness :
  async_unload_entry true (ConfigEntry (lit "e1") ∅)
    (async_setup_entry (ConfigEntry (lit "e1") ∅) None).1
  = (Some ∅, Done true).
Proof.
  destruct (setup_then_unload (ConfigEntry (lit "e1") ∅) None) as [H _].
  apply H. reflexivity.
Defined.

(** X21. The five entities of an entry are built from what its setup
    stored: after [async_setup_entry] the sensor platform creates the API
    sensor, Reserva Hoy, Anterior Reserva and Próxima Reserva and the
    binary sensor platform creates Ocupado, each with the entry's [host]
    and [token] ([None] for a field the entry lacks), whatever other
    entries are stored.  Their unique ids are pairwise different. *)
Theorem entities_of_an_entry (entry : config_entry) (hd : domain_data) :
  let up := (async_setup_entry entry hd).1 in
  let h := get (data entry) "host" in
  let t := get (data entry) "token" in
  sensor_setup_entry entry up
    = Done [ApiPingSensor h t; ReservaHoySensor h t;
            ReservaAnteriorSensor h t; ReservaProximaSensor h t]
  /\ binary_sensor_setup_entry entry up = Done [OcupadoBinarySensor h t]
  /\ NoDup (map attr_unique_id
              [ApiPingSensor h t; ReservaHoySensor h t;
               ReservaAnteriorSensor h t; ReservaProximaSensor h t;
               OcupadoBinarySensor h t]).
Proof.
  intros up h t.
  assert (stored entry up = Done (h, t)) as Hs.
  { unfold stored, up, async_setup_entry. cbn [fst].
    rewrite lookup_insert_eq. by vm_compute. }
  unfold sensor_setup_entry, binary_sensor_setup_entry. rewrite Hs.
  split_and!; [done..|]. cbn [map attr_unique_id ApiPingSensor
    ReservaHoySensor ReservaAnteriorSensor ReservaProximaSensor
    OcupadoBinarySensor].
  match goal with
  | |- NoDup ?l => apply (bool_decide_unpack (NoDup l)); by vm_compute
  end.
Qed.

(** X22. Unload and platform setup at the edges: when unloading the
    platforms fails the stored data stays as it is and the answer is
    [False]; unloading an entry that is not stored raises [KeyError] and
    changes nothing; and a platform set up for an entry that is not stored
    raises [KeyError] without creating any entity. *)
Theorem unload_and_setup_edges (entry : config_entry) (hd : domain_data) :
  async_unload_entry false entry hd = (hd, Done false)
  /\ (default ∅ hd !! entry_id entry = None ->
      async_unload_entry true entry hd = (hd, RaisesKeyError)
      /\ sensor_setup_entry entry hd = RaisesKeyError
      /\ binary_sensor_setup_entry entry hd = RaisesKeyError).
Proof.
  split; [done|]. unfold async_unload_entry, sensor_setup_entry,
    binary_sensor_setup_entry, stored.
  destruct hd as [slot|]; [|done]. cbn [default from_option id]. by intros ->.
Qed.

Lemma unload_and_setup_edges_witness :
  async_unload_entry true (ConfigEntry (lit "e1") ∅) (Some ∅)
    = (Some ∅, RaisesKeyError).
Proof.
  destruct (unload_and_setup_edges (ConfigEntry (lit "e1") ∅) (Some ∅))
    as [_ H].
  apply H. reflexivity.
Defined.

End EntrySetup.

(** ** Reaching the ceiling *)

Section Ceiling.
Import Py Sse Lines Traces StreamSamples.

(** X23. The backoff reaches the ceiling quickly and stays there while
    the failures last: counted from the start of the listener, five
    consecutive failed passes without HTTP 200 are enough for the backoff
    to be 300, and from any running state whose backoff lies between the
    floor and the ceiling (so also after a reset to 5) six are; any
    further such failure leaves it at 300. *)
Theorem backoff_saturates (script : list attempt) (st : loop_state) :
  forallb refused script = true ->
  ((5 <= length script)%nat ->
   backoff (listen_sse script initial).1 = CEILING)
  /\ (running st = true -> FLOOR <= backoff st <= CEILING ->
      (6 <= length script)%nat ->
      backoff (listen_sse script st).1 = CEILING).
Proof.
  intros Hs. unfold FLOOR, CEILING.
  assert (forall n : nat, forall k : Z,
            (Z.to_nat k <= n)%nat -> 0 <= k -> 2 ^ k <= 2 ^ Z.of_nat n) as Hpow.
  { intros n k Hk Hk0. apply Z.pow_le_mono_r; lia. }
  split.
  - intros Hlen.
    destruct (listen_sse_refused script initial eq_refl ltac:(simpl; lia) Hs)
      as (_ & _ & ->).
    pose proof (Hpow (length script) 5 ltac:(lia) ltac:(lia)) as H.
    change (2 ^ 5) with 32 in H. simpl backoff. lia.
  - intros Hr Hb Hlen.
    destruct (listen_sse_refused script st Hr ltac:(lia) Hs) as (_ & _ & ->).
    pose proof (Hpow (length script) 6 ltac:(lia) ltac:(lia)) as H.
    change (2 ^ 6) with 64 in H. nia.
Qed.

Lemma backoff_saturates_witness :
  backoff (listen_sse [down; lost; down; lost; unauthorized] initial).1
  = CEILING.
Proof.
  destruct (backoff_saturates [down; lost; down; lost; unauthorized] initial
              eq_refl) as [H _].
  apply H. simpl. lia.
Defined.

End Ceiling.

(** ** The options step *)

Section Options.
Import Py Fetch ConfigFlow LoginSamples.

(** X24. The options step never touches the entry unless the login gave
    a token.  Without input, and after a login that failed with anything
    [except Exception] catches, it shows the form, with the host default
    taken from the options, else from the data, else empty; a failed login
    adds the error [base: auth] and has sent only the requests of the
    login.  A missing field is not caught here: it raises [KeyError]
    before anything is sent.  When the login gives a token the entry is
    updated once, after the login's requests: its new data keep every
    other key of the old data, hold the host as typed and the new token,
    and the options are emptied. *)
Theorem options_step_outcomes (HOST USER PASS : str) (srv : server)
    (updated reloaded : reply unit) (data options : gmap str pyval)
    (input : gmap str str) :
  let step := async_step_init HOST USER PASS srv updated reloaded data options in
  let fields :=
    [(HOST, Some (default (default (PStr []) (data !! lit "host"))
                    (options !! lit "host")));
     (USER, Some (default (PStr []) (options !! lit "username")));
     (PASS, None)] in
  step None = ([], Gives (ShowOptions "init" fields ∅))
  /\ (input !! HOST = None \/ input !! USER = None \/ input !! PASS = None ->
      step (Some input) = ([], Raises KeyError))
  /\ (forall host username password,
        input !! HOST = Some host -> input !! USER = Some username ->
        input !! PASS = Some password ->
        let login := login_and_get_token srv host username password in
        match login.2 with
        | Raises e =>
            step (Some input)
            = (map Sent login.1,
               if is_Exception e
               then Gives (ShowOptions "init" fields
                             {[lit "base" := lit "auth"]})
               else Raises e)
        | Gives token =>
            exists new_data rest,
              (step (Some input)).1
              = map Sent login.1 ++ UpdateEntry new_data ∅ :: rest
              /\ (rest = [] \/ rest = [Reload])
              /\ new_data !! lit "host" = Some (PStr host)
              /\ new_data !! lit "token" = Some token
              /\ (forall key, key <> lit "host" -> key <> lit "token" ->
                    new_data !! key = data !! key)
        end).
Proof.
  intros step fields. split_and!.
  - done.
  - unfold step, async_step_init.
    destruct (input !! HOST); [|done]. destruct (input !! USER); [|done].
    destruct (input !! PASS); [|done]. by intros [|[|]].
  - intros host username password Hh Hu Hp login.
    unfold step, async_step_init. rewrite Hh, Hu, Hp. fold login.
    destruct login as [requests [e|token]]; cbn [fst snd].
    + by destruct (is_Exception e).
    + exists (<[lit "token" := token]> (<[lit "host" := PStr host]> data)),
        (match updated with Raises _ => [] | Gives _ => [Reload] end).
      split_and!.
      * destruct updated as [e|[]]; [|destruct reloaded as [e|[]]];
          cbn [fst]; rewrite <- ?app_assoc; reflexivity.
      * destruct updated; auto.
      * rewrite lookup_insert_ne by done. by rewrite lookup_insert_eq.
      * by rewrite lookup_insert_eq.
      * intros key H1 H2. by rewrite !lookup_insert_ne.
Qed.

Lemma options_step_outcomes_witness :
  async_step_init (lit "host") (lit "username") (lit "password") friendly
    (Gives tt) (Gives tt) ∅ ∅ (Some (delete (lit "username") credentials))
  = ([], Raises KeyError).
Proof.
  destruct (options_step_outcomes (lit "host") (lit "username")
              (lit "password") friendly (Gives tt) (Gives tt) ∅ ∅
              (delete (lit "username") credentials)) as (_ & H & _).
  apply H. right. left. reflexivity.
Defined.

End Options.
